(** * TracksManager: the track list controller, the dialogs and the API client

    A shallow embedding of the view-state logic of the TracksManager front
    end (React + TypeScript) and the properties its specification states
    about it.

    Conventions of the embedding:
    - a [useState] cell is a field of a state record; [setX v] and
      [setX (prev => ...)] are both state transformers ([setX (fun _ => v)]
      for the first form), sequenced in source order with [;;];
    - a value a handler reads from its render closure (rather than from the
      [prev] argument of a functional update) is read from the state the
      handler was created in; for the two confirm actions, which are stored
      and run later, the captured values are stored with the action;
    - an [await] on a remote call takes the settled promise as an argument;
    - JavaScript numbers that hold counts and page numbers are [Z]. *)

From Stdlib Require Import ZArith List String Bool Lia Permutation.
Import ListNotations.

Local Open Scope Z_scope.
Local Open Scope list_scope.

(** ** JavaScript helpers *)

Module Js.

(** [arr.includes(x)] on an array of strings. *)
Definition includes (arr : list string) (x : string) : bool :=
  existsb (String.eqb x) arr.

(** Truthiness of a [string | null | undefined] value. *)
Definition truthy (v : option string) : bool :=
  match v with
  | Some s => negb (String.eqb s EmptyString)
  | None => false
  end.

(** [a === b] on [string | null]. *)
Definition strict_eq (a b : option string) : bool :=
  match a, b with
  | Some x, Some y => String.eqb x y
  | None, None => true
  | _, _ => false
  end.

(** A value thrown by a rejected promise: an [Error] instance with its
    message, or anything else. *)
Inductive Thrown :=
| ErrorObj (message : string)
| OtherValue.

(** A settled promise. *)
Inductive Settled (A : Type) :=
| Resolved (a : A)
| Rejected (e : Thrown).
Arguments Resolved {A} a.
Arguments Rejected {A} e.

(** [try { body } catch (error) { handler }] around an awaited value. *)
Definition try_catch {A B : Type} (awaited : Settled A)
           (body : A -> Settled B) (handler : Thrown -> Settled B)
  : Settled B :=
  match awaited with
  | Resolved a => body a
  | Rejected e => handler e
  end.

(** Truthiness of a string: [""] is falsy. *)
Definition nonEmpty (v : string) : bool :=
  negb (String.eqb v EmptyString).

End Js.

(** ** Regular expressions

    The fragment of JavaScript patterns the dialogs use: characters, [.],
    sequence, alternation, [*] and [?], with or without the [i] flag.
    [RegExp.prototype.test] on such a pattern only asks whether some match
    exists, which is membership in the pattern's language; the matcher
    below decides it by derivatives. Characters are code units below 256,
    so the line terminators [.] refuses are line feed and carriage
    return. *)

Module Regex.

Inductive t :=
| Never
| Eps
| Chr (c : Ascii.ascii)
| Dot
| Seq (r1 r2 : t)
| Alt (r1 r2 : t)
| Star (r : t).

(** [r?] *)
Definition Opt (r : t) : t := Alt r Eps.

(** The characters of a string, one after the other. *)
Fixpoint word (w : string) : t :=
  match w with
  | EmptyString => Eps
  | String c rest => Seq (Chr c) (word rest)
  end.

(** Canonicalisation under the [i] flag, for characters compared with
    pattern characters below 128: [a]-[z] go to [A]-[Z]. *)
Definition canonical (c : Ascii.ascii) : Ascii.ascii :=
  let n := Ascii.nat_of_ascii c in
  if Nat.leb 97 n && Nat.leb n 122 then Ascii.ascii_of_nat (n - 32) else c.

(** A pattern character meets an input character. *)
Definition sameChar (ignoreCase : bool) (p c : Ascii.ascii) : bool :=
  if ignoreCase then Ascii.eqb (canonical p) (canonical c)
  else Ascii.eqb p c.

(** Line feed or carriage return. *)
Definition lineTerminator (c : Ascii.ascii) : bool :=
  Nat.eqb (Ascii.nat_of_ascii c) 10 || Nat.eqb (Ascii.nat_of_ascii c) 13.

Fixpoint nullable (r : t) : bool :=
  match r with
  | Never => false
  | Eps => true
  | Chr _ => false
  | Dot => false
  | Seq r1 r2 => nullable r1 && nullable r2
  | Alt r1 r2 => nullable r1 || nullable r2
  | Star _ => true
  end.

(** What is left of the pattern once [c] has been read. *)
Fixpoint derive (ignoreCase : bool) (c : Ascii.ascii) (r : t) : t :=
  match r with
  | Never => Never
  | Eps => Never
  | Chr p => if sameChar ignoreCase p c then Eps else Never
  | Dot => if lineTerminator c then Never else Eps
  | Seq r1 r2 =>
      if nullable r1
      then Alt (Seq (derive ignoreCase c r1) r2) (derive ignoreCase c r2)
      else Seq (derive ignoreCase c r1) r2
  | Alt r1 r2 => Alt (derive ignoreCase c r1) (derive ignoreCase c r2)
  | Star r1 => Seq (derive ignoreCase c r1) (Star r1)
  end.

(** [/^r$/.test(s)] *)
Fixpoint whole (ignoreCase : bool) (r : t) (s : string) : bool :=
  match s with
  | EmptyString => nullable r
  | String c rest => whole ignoreCase (derive ignoreCase c r) rest
  end.

(** [/^r/.test(s)] *)
Fixpoint start (ignoreCase : bool) (r : t) (s : string) : bool :=
  nullable r
  || match s with
     | EmptyString => false
     | String c rest => start ignoreCase (derive ignoreCase c r) rest
     end.

(** The language of a pattern. *)
Inductive lang (ignoreCase : bool) : t -> string -> Prop :=
| lang_eps : lang ignoreCase Eps EmptyString
| lang_chr p c :
    sameChar ignoreCase p c = true ->
    lang ignoreCase (Chr p) (String c EmptyString)
| lang_dot c :
    lineTerminator c = false ->
    lang ignoreCase Dot (String c EmptyString)
| lang_seq r1 r2 s1 s2 :
    lang ignoreCase r1 s1 -> lang ignoreCase r2 s2 ->
    lang ignoreCase (Seq r1 r2) (s1 ++ s2)
| lang_alt_l r1 r2 s :
    lang ignoreCase r1 s -> lang ignoreCase (Alt r1 r2) s
| lang_alt_r r1 r2 s :
    lang ignoreCase r2 s -> lang ignoreCase (Alt r1 r2) s
| lang_star_nil r : lang ignoreCase (Star r) EmptyString
| lang_star_more r s1 s2 :
    lang ignoreCase r s1 -> lang ignoreCase (Star r) s2 ->
    lang ignoreCase (Star r) (s1 ++ s2).

(** Two strings that agree up to the case of [a]-[z]. *)
Fixpoint sameWord (ignoreCase : bool) (w s : string) : bool :=
  match w, s with
  | EmptyString, EmptyString => true
  | String p w', String c s' =>
      sameChar ignoreCase p c && sameWord ignoreCase w' s'
  | _, _ => false
  end.


End Regex.

(** ** types/track *)

Module Track.

Record TrackCardProps := {
  id : string;
  title : string;
  artist : string;
  album : string;
  genres : list string;
  coverImage : string;
  audioFile : option string;
  createdAt : string
}.

(** [TrackProps] has the fields of [TrackCardProps] plus [slug] and
    [updatedAt]; where the controller stores one in its list of
    [TrackCardProps] only the shared fields are read. *)
Record TrackProps := {
  card : TrackCardProps;
  slug : string;
  updatedAt : string
}.

End Track.

(** ** services/api *)

Module Api.
Import Js.

(** What axios resolves with: the payload under [data]. *)
Record AxiosResponse (A : Type) := { data : A }.
Arguments data {A} _.

Record Meta := { total : Z; totalPages : Z }.

(** Payload of the list endpoint. *)
Record TracksPage := {
  page_data : list Track.TrackCardProps;
  page_meta : Meta
}.

(** [getTracks]: returns [response.data]; logs and rethrows. *)
Definition getTracks (get : Settled (AxiosResponse TracksPage))
  : Settled TracksPage :=
  try_catch get (fun response => Resolved (data response))
            (fun error => Rejected error).

(** [getGenres]: returns [response.data]; logs and rethrows. *)
Definition getGenres (get : Settled (AxiosResponse (list string)))
  : Settled (list string) :=
  try_catch get (fun response => Resolved (data response))
            (fun error => Rejected error).

(** [deleteTrack]: returns the axios promise itself. *)
Definition deleteTrack {A : Type} (del : Settled (AxiosResponse A))
  : Settled (AxiosResponse A) :=
  del.

(** [deleteTracks]: awaits the post; the catch block logs the error and
    falls off the end, so the returned promise resolves. *)
Definition deleteTracks {A : Type} (post : Settled (AxiosResponse A))
  : Settled unit :=
  try_catch post (fun _ => Resolved tt) (fun error => Resolved tt).

(** [deleteAudiofile]: same shape as [deleteTracks]. *)
Definition deleteAudiofile {A : Type} (del : Settled (AxiosResponse A))
  : Settled unit :=
  try_catch del (fun _ => Resolved tt) (fun error => Resolved tt).

(** [createTrack]: returns [response.data]; logs and rethrows. *)
Definition createTrack (post : Settled (AxiosResponse Track.TrackProps))
  : Settled Track.TrackProps :=
  try_catch post (fun response => Resolved (data response))
            (fun error => Rejected error).

(** [updateTrack]: returns [response.data]; logs and rethrows. *)
Definition updateTrack (put : Settled (AxiosResponse Track.TrackCardProps))
  : Settled Track.TrackCardProps :=
  try_catch put (fun response => Resolved (data response))
            (fun error => Rejected error).

(** What the upload endpoint answers, as far as it is read. *)
Record Uploaded := { fileUrl : string }.

(** [uploadTrackFile]: returns [response.data]; logs and rethrows. *)
Definition uploadTrackFile (post : Settled (AxiosResponse Uploaded))
  : Settled Uploaded :=
  try_catch post (fun response => Resolved (data response))
            (fun error => Rejected error).

Definition apiURL : string := "http://localhost:8000/api/".

(** [getAudioURL]: the template [${apiURL}files/${file}]. *)
Definition getAudioURL (file : string) : string :=
  (apiURL ++ "files/" ++ file)%string.

End Api.

(** ** hooks/useModalState *)

Module ModalState.

Record t := { isOpen : bool }.

Definition initial : t := {| isOpen := false |}.

Definition setIsOpen (f : bool -> bool) (m : t) : t :=
  {| isOpen := f (isOpen m) |}.

Definition open : t -> t := setIsOpen (fun _ => true).
Definition close : t -> t := setIsOpen (fun _ => false).
Definition toggle : t -> t := setIsOpen (fun prev => negb prev).

End ModalState.

(** ** components/TracksList: state *)

Module Params.

(** The [params] cell: filters, sorting and pagination of the request. *)
Record t := {
  search : string;
  sort : string;
  order : string;
  genre : string;
  artist : string;
  page : Z;
  limit : Z;
  totalPages : Z
}.

(** [Partial<typeof params>]: each key present or absent. *)
Record partial := {
  p_search : option string;
  p_sort : option string;
  p_order : option string;
  p_genre : option string;
  p_artist : option string;
  p_page : option Z;
  p_limit : option Z;
  p_totalPages : option Z
}.

Definition or_prev {A : Type} (new : option A) (prev : A) : A :=
  match new with
  | Some v => v
  | None => prev
  end.

(** [{ ...prev, ...newParams }] *)
Definition spread (prev : t) (newParams : partial) : t :=
  {| search := or_prev (p_search newParams) (search prev);
     sort := or_prev (p_sort newParams) (sort prev);
     order := or_prev (p_order newParams) (order prev);
     genre := or_prev (p_genre newParams) (genre prev);
     artist := or_prev (p_artist newParams) (artist prev);
     page := or_prev (p_page newParams) (page prev);
     limit := or_prev (p_limit newParams) (limit prev);
     totalPages := or_prev (p_totalPages newParams) (totalPages prev) |}.

(** [{ ...prev, page: n }] *)
Definition with_page (prev : t) (n : Z) : t :=
  {| search := search prev; sort := sort prev; order := order prev;
     genre := genre prev; artist := artist prev;
     page := n;
     limit := limit prev; totalPages := totalPages prev |}.

End Params.

Module TracksList.
Import Js.

Record PaginationMeta := { total : Z; totalPages : Z }.

(** [{ ...prev, total: n }] *)
Definition with_total (prev : PaginationMeta) (n : Z) : PaginationMeta :=
  {| total := n; totalPages := totalPages prev |}.

(** The closure stored in the [confirmAction] cell, with the values it
    captured from the render in which it was created. *)
Inductive ConfirmAction :=
| NoAction
| DeleteTrackAction (id : string) (selectedTrackIds : list string)
| BulkDeleteAction (tracks : list Track.TrackCardProps)
                   (selectedTrackIds : list string)
                   (params : Params.t).

Record State := {
  tracks : list Track.TrackCardProps;
  paginationMeta : PaginationMeta;
  isLoading : bool;
  error : option string;
  selectedTrackIds : list string;
  isConfirmDialogOpen : bool;
  confirmAction : ConfirmAction;
  createModal : ModalState.t;
  editModal : ModalState.t;
  currentTrack : option Track.TrackCardProps;
  playingTrackId : option string;
  params : Params.t;
  (** identity of the object held in [params]: every [setParams] stores
      a fresh object, which is what the dependency array of
      [fetchTracks] compares *)
  paramsRef : nat;
  genreOptions : list string;
  refreshTrigger : Z
}.

Definition initialState : State :=
  {| tracks := [];
     paginationMeta := {| total := 0; totalPages := 0 |};
     isLoading := false;
     error := None;
     selectedTrackIds := [];
     isConfirmDialogOpen := false;
     confirmAction := NoAction;
     createModal := ModalState.initial;
     editModal := ModalState.initial;
     currentTrack := None;
     playingTrackId := None;
     params := {| Params.search := EmptyString; Params.sort := "title";
                  Params.order := "asc"; Params.genre := EmptyString;
                  Params.artist := EmptyString; Params.page := 1;
                  Params.limit := 10; Params.totalPages := 1 |};
     paramsRef := 0;
     genreOptions := [];
     refreshTrigger := 0 |}.

(** A sequence of state updates. *)
Definition Update := State -> State.

Definition seq (f g : Update) : Update := fun s => g (f s).
Notation "f ;; g" := (seq f g) (at level 61, left associativity).

Definition skip : Update := fun s => s.

(** *** The setters *)

Definition setTracks (f : list Track.TrackCardProps -> list Track.TrackCardProps)
  : Update := fun s =>
  {| tracks := f (tracks s);
     paginationMeta := paginationMeta s; isLoading := isLoading s;
     error := error s; selectedTrackIds := selectedTrackIds s;
     isConfirmDialogOpen := isConfirmDialogOpen s;
     confirmAction := confirmAction s; createModal := createModal s;
     editModal := editModal s; currentTrack := currentTrack s;
     playingTrackId := playingTrackId s; params := params s;
     paramsRef := paramsRef s; genreOptions := genreOptions s;
     refreshTrigger := refreshTrigger s |}.

Definition setPaginationMeta (f : PaginationMeta -> PaginationMeta)
  : Update := fun s =>
  {| tracks := tracks s;
     paginationMeta := f (paginationMeta s);
     isLoading := isLoading s;
     error := error s; selectedTrackIds := selectedTrackIds s;
     isConfirmDialogOpen := isConfirmDialogOpen s;
     confirmAction := confirmAction s; createModal := createModal s;
     editModal := editModal s; currentTrack := currentTrack s;
     playingTrackId := playingTrackId s; params := params s;
     paramsRef := paramsRef s; genreOptions := genreOptions s;
     refreshTrigger := refreshTrigger s |}.

Definition setIsLoading (v : bool) : Update := fun s =>
  {| tracks := tracks s; paginationMeta := paginationMeta s;
     isLoading := v;
     error := error s; selectedTrackIds := selectedTrackIds s;
     isConfirmDialogOpen := isConfirmDialogOpen s;
     confirmAction := confirmAction s; createModal := createModal s;
     editModal := editModal s; currentTrack := currentTrack s;
     playingTrackId := playingTrackId s; params := params s;
     paramsRef := paramsRef s; genreOptions := genreOptions s;
     refreshTrigger := refreshTrigger s |}.

Definition setError (v : option string) : Update := fun s =>
  {| tracks := tracks s; paginationMeta := paginationMeta s;
     isLoading := isLoading s;
     error := v;
     selectedTrackIds := selectedTrackIds s;
     isConfirmDialogOpen := isConfirmDialogOpen s;
     confirmAction := confirmAction s; createModal := createModal s;
     editModal := editModal s; currentTrack := currentTrack s;
     playingTrackId := playingTrackId s; params := params s;
     paramsRef := paramsRef s; genreOptions := genreOptions s;
     refreshTrigger := refreshTrigger s |}.

Definition setSelectedTrackIds (f : list string -> list string)
  : Update := fun s =>
  {| tracks := tracks s; paginationMeta := paginationMeta s;
     isLoading := isLoading s; error := error s;
     selectedTrackIds := f (selectedTrackIds s);
     isConfirmDialogOpen := isConfirmDialogOpen s;
     confirmAction := confirmAction s; createModal := createModal s;
     editModal := editModal s; currentTrack := currentTrack s;
     playingTrackId := playingTrackId s; params := params s;
     paramsRef := paramsRef s; genreOptions := genreOptions s;
     refreshTrigger := refreshTrigger s |}.

Definition setIsConfirmDialogOpen (v : bool) : Update := fun s =>
  {| tracks := tracks s; paginationMeta := paginationMeta s;
     isLoading := isLoading s; error := error s;
     selectedTrackIds := selectedTrackIds s;
     isConfirmDialogOpen := v;
     confirmAction := confirmAction s; createModal := createModal s;
     editModal := editModal s; currentTrack := currentTrack s;
     playingTrackId := playingTrackId s; params := params s;
     paramsRef := paramsRef s; genreOptions := genreOptions s;
     refreshTrigger := refreshTrigger s |}.

Definition setConfirmAction (a : ConfirmAction) : Update := fun s =>
  {| tracks := tracks s; paginationMeta := paginationMeta s;
     isLoading := isLoading s; error := error s;
     selectedTrackIds := selectedTrackIds s;
     isConfirmDialogOpen := isConfirmDialogOpen s;
     confirmAction := a;
     createModal := createModal s;
     editModal := editModal s; currentTrack := currentTrack s;
     playingTrackId := playingTrackId s; params := params s;
     paramsRef := paramsRef s; genreOptions := genreOptions s;
     refreshTrigger := refreshTrigger s |}.

Definition setCreateModal (f : ModalState.t -> ModalState.t)
  : Update := fun s =>
  {| tracks := tracks s; paginationMeta := paginationMeta s;
     isLoading := isLoading s; error := error s;
     selectedTrackIds := selectedTrackIds s;
     isConfirmDialogOpen := isConfirmDialogOpen s;
     confirmAction := confirmAction s;
     createModal := f (createModal s);
     editModal := editModal s; currentTrack := currentTrack s;
     playingTrackId := playingTrackId s; params := params s;
     paramsRef := paramsRef s; genreOptions := genreOptions s;
     refreshTrigger := refreshTrigger s |}.

Definition setEditModal (f : ModalState.t -> ModalState.t)
  : Update := fun s =>
  {| tracks := tracks s; paginationMeta := paginationMeta s;
     isLoading := isLoading s; error := error s;
     selectedTrackIds := selectedTrackIds s;
     isConfirmDialogOpen := isConfirmDialogOpen s;
     confirmAction := confirmAction s; createModal := createModal s;
     editModal := f (editModal s);
     currentTrack := currentTrack s;
     playingTrackId := playingTrackId s; params := params s;
     paramsRef := paramsRef s; genreOptions := genreOptions s;
     refreshTrigger := refreshTrigger s |}.

Definition setCurrentTrack (v : option Track.TrackCardProps) : Update := fun s =>
  {| tracks := tracks s; paginationMeta := paginationMeta s;
     isLoading := isLoading s; error := error s;
     selectedTrackIds := selectedTrackIds s;
     isConfirmDialogOpen := isConfirmDialogOpen s;
     confirmAction := confirmAction s; createModal := createModal s;
     editModal := editModal s;
     currentTrack := v;
     playingTrackId := playingTrackId s; params := params s;
     paramsRef := paramsRef s; genreOptions := genreOptions s;
     refreshTrigger := refreshTrigger s |}.

Definition setPlayingTrackId (v : option string) : Update := fun s =>
  {| tracks := tracks s; paginationMeta := paginationMeta s;
     isLoading := isLoading s; error := error s;
     selectedTrackIds := selectedTrackIds s;
     isConfirmDialogOpen := isConfirmDialogOpen s;
     confirmAction := confirmAction s; createModal := createModal s;
     editModal := editModal s; currentTrack := currentTrack s;
     playingTrackId := v;
     params := params s;
     paramsRef := paramsRef s; genreOptions := genreOptions s;
     refreshTrigger := refreshTrigger s |}.

Definition setParams (f : Params.t -> Params.t) : Update := fun s =>
  {| tracks := tracks s; paginationMeta := paginationMeta s;
     isLoading := isLoading s; error := error s;
     selectedTrackIds := selectedTrackIds s;
     isConfirmDialogOpen := isConfirmDialogOpen s;
     confirmAction := confirmAction s; createModal := createModal s;
     editModal := editModal s; currentTrack := currentTrack s;
     playingTrackId := playingTrackId s;
     params := f (params s);
     paramsRef := S (paramsRef s);
     genreOptions := genreOptions s;
     refreshTrigger := refreshTrigger s |}.

Definition setGenreOptions (v : list string) : Update := fun s =>
  {| tracks := tracks s; paginationMeta := paginationMeta s;
     isLoading := isLoading s; error := error s;
     selectedTrackIds := selectedTrackIds s;
     isConfirmDialogOpen := isConfirmDialogOpen s;
     confirmAction := confirmAction s; createModal := createModal s;
     editModal := editModal s; currentTrack := currentTrack s;
     playingTrackId := playingTrackId s; params := params s;
     paramsRef := paramsRef s;
     genreOptions := v;
     refreshTrigger := refreshTrigger s |}.

Definition setRefreshTrigger (f : Z -> Z) : Update := fun s =>
  {| tracks := tracks s; paginationMeta := paginationMeta s;
     isLoading := isLoading s; error := error s;
     selectedTrackIds := selectedTrackIds s;
     isConfirmDialogOpen := isConfirmDialogOpen s;
     confirmAction := confirmAction s; createModal := createModal s;
     editModal := editModal s; currentTrack := currentTrack s;
     playingTrackId := playingTrackId s; params := params s;
     paramsRef := paramsRef s; genreOptions := genreOptions s;
     refreshTrigger := f (refreshTrigger s) |}.


(** *** API calls *)

(** [fetchTracks] up to its [await]. *)
Definition fetchTracks_begin : Update :=
  setIsLoading true ;; setError None.

(** [fetchTracks] from the point where [getTracks] settles. *)
Definition fetchTracks_settle
           (get : Settled (Api.AxiosResponse Api.TracksPage)) : Update :=
  match Api.getTracks get with
  | Resolved data =>
      setTracks (fun _ => Api.page_data data) ;;
      setPaginationMeta (fun _ =>
        {| total := Api.total (Api.page_meta data);
           totalPages :=
             if Api.totalPages (Api.page_meta data) =? 0 then 1
             else Api.totalPages (Api.page_meta data) |})
  | Rejected err =>
      setError (Some match err with
                     | ErrorObj message => message
                     | OtherValue => "Failed to fetch tracks"%string
                     end) ;;
      setTracks (fun _ => [])
  end ;;
  setIsLoading false.

(** [fetchGenres] from the point where [getGenres] settles. *)
Definition fetchGenres_settle
           (get : Settled (Api.AxiosResponse (list string))) : Update :=
  match Api.getGenres get with
  | Resolved genresData => setGenreOptions genresData
  | Rejected err => skip
  end.

(** *** Handlers *)

Definition handleSearchParams (newParams : Params.partial) : Update :=
  setParams (fun prev => Params.with_page (Params.spread prev newParams) 1).

Definition handlePageChange (newPage : Z) : Update :=
  setParams (fun prev => Params.with_page prev newPage).

Definition handleSelectTrack (id : string) : Update :=
  setSelectedTrackIds (fun prev =>
    if includes prev id
    then filter (fun trackId => negb (String.eqb trackId id)) prev
    else prev ++ [id]).

Definition handleSelectAll : Update := fun s =>
  if forallb (fun track => includes (selectedTrackIds s) (Track.id track))
             (tracks s)
  then setSelectedTrackIds (fun _ => []) s
  else setSelectedTrackIds (fun _ => map Track.id (tracks s)) s.

Definition handlePlayTrack (id : string) : Update := fun s =>
  if strict_eq (Some id) (playingTrackId s)
  then setPlayingTrackId None s
  else setPlayingTrackId (Some id) s.

(** The type of what the two delete endpoints answer; the payload is
    never read. *)
Definition DeleteReply := Settled (Api.AxiosResponse unit).

(** The action stored by [handleDeleteTrack]: [selectedTrackIds] is the
    captured one, the three setters before the [await] run whatever the
    remote call does later. *)
Definition deleteTrackAction (id : string) (selectedTrackIds : list string)
           (reply : DeleteReply) : Update :=
  setTracks (filter (fun track => negb (String.eqb (Track.id track) id))) ;;
  setPaginationMeta (fun prev => with_total prev (Z.max 0 (total prev - 1))) ;;
  (if includes selectedTrackIds id
   then setSelectedTrackIds
          (filter (fun trackId => negb (String.eqb trackId id)))
   else skip) ;;
  match Api.deleteTrack reply with
  | Resolved _ => skip
  | Rejected error =>
      setError (Some "Failed to delete track. Please try again."%string) ;;
      setRefreshTrigger (fun prev => prev + 1)
  end ;;
  setIsConfirmDialogOpen false.

Definition handleDeleteTrack (id : string) : Update := fun s =>
  (setIsConfirmDialogOpen true ;;
   setConfirmAction (DeleteTrackAction id (selectedTrackIds s))) s.

(** The action stored by [handleBulkDelete]: [tracks], [selectedTrackIds]
    and [params] are the captured ones. *)
Definition bulkDeleteAction (tracks : list Track.TrackCardProps)
           (selectedTrackIds : list string) (params : Params.t)
           (reply : DeleteReply) : Update :=
  let tracksToKeep :=
    filter (fun track => negb (includes selectedTrackIds (Track.id track)))
           tracks in
  setTracks (fun _ => tracksToKeep) ;;
  setPaginationMeta (fun prev =>
    with_total prev
      (Z.max 0 (total prev - Z.of_nat (List.length selectedTrackIds)))) ;;
  let deletedTrackIds := selectedTrackIds in
  setSelectedTrackIds (fun _ => []) ;;
  match Api.deleteTracks reply with
  | Resolved _ =>
      if Nat.eqb (List.length tracksToKeep) 0 && (Params.page params >? 1)
      then setParams (fun prev =>
             Params.with_page prev (Params.page prev - 1))
      else if Nat.eqb (List.length tracksToKeep) 0
      then setRefreshTrigger (fun prev => prev + 1)
      else skip
  | Rejected err =>
      setError
        (Some "Failed to delete selected tracks. Please try again."%string) ;;
      setRefreshTrigger (fun prev => prev + 1)
  end ;;
  setIsConfirmDialogOpen false.

Definition handleBulkDelete : Update := fun s =>
  if Nat.eqb (List.length (selectedTrackIds s)) 0 then s
  else (setIsConfirmDialogOpen true ;;
        setConfirmAction
          (BulkDeleteAction (tracks s) (selectedTrackIds s) (params s))) s.

(** Running the stored closure (the Delete button of the confirm
    dialog). *)
Definition runConfirmAction (reply : DeleteReply) : Update := fun s =>
  match confirmAction s with
  | NoAction => s
  | DeleteTrackAction id sel => deleteTrackAction id sel reply s
  | BulkDeleteAction trs sel prm => bulkDeleteAction trs sel prm reply s
  end.

Definition handleEditTrack (track : Track.TrackCardProps) : Update :=
  setCurrentTrack (Some track) ;; setEditModal ModalState.open.

Definition handleUpdateTrack (updatedTrack : Track.TrackCardProps) : Update :=
  setTracks (map (fun track =>
    if String.eqb (Track.id track) (Track.id updatedTrack)
    then updatedTrack else track)) ;;
  setEditModal ModalState.close.

Definition handleTrackCreate (newTrack : Track.TrackProps) : Update :=
  setTracks (fun prevTracks => Track.card newTrack :: prevTracks) ;;
  setPaginationMeta (fun prev => with_total prev (total prev + 1)) ;;
  setCreateModal ModalState.close.

(** The Retry button of the error banner. *)
Definition retry : Update :=
  setError None ;; setRefreshTrigger (fun prev => prev + 1).

(** *** What the render derives from the state *)

(** [isPlaying] as passed to a row. *)
Definition isPlaying (s : State) (track : Track.TrackCardProps) : bool :=
  strict_eq (Some (Track.id track)) (playingTrackId s).

(** [isSelected] as passed to a row. *)
Definition isSelected (s : State) (track : Track.TrackCardProps) : bool :=
  includes (selectedTrackIds s) (Track.id track).

(** The list of rows is rendered. *)
Definition rowsShown (s : State) : bool :=
  negb (isLoading s) && negb (truthy (error s))
  && (0 <? Z.of_nat (List.length (tracks s))).

(** The play button of a row is rendered and not disabled. *)
Definition canPlay (s : State) (id : string) : bool :=
  rowsShown s
  && existsb (fun track => String.eqb (Track.id track) id
                           && truthy (Track.audioFile track))
             (tracks s).

(** The ids on the loaded page. *)
Definition visibleIds (s : State) : list string :=
  map Track.id (tracks s).

(** *** The component as a transition system *)

(** The component together with the requests it is waiting for. *)
Record World := {
  ui : State;
  tracksInFlight : nat;
  genresInFlight : nat
}.

Inductive Event :=
| SearchParams (newParams : Params.partial)
| PreviousPage
| NextPage
| TracksSettled (get : Settled (Api.AxiosResponse Api.TracksPage))
| GenresSettled (get : Settled (Api.AxiosResponse (list string)))
| SelectTrack (id : string)
| SelectAll
| PlayTrack (id : string)
| DeleteTrack (id : string)
| BulkDelete
| ConfirmDelete (reply : DeleteReply)
| CancelDelete
| Retry
| OpenCreate
| CloseCreate
| TrackCreated (newTrack : Track.TrackProps)
| EditTrack (row : nat)
| CloseEdit
| TrackUpdated (updatedTrack : Track.TrackCardProps)
| FileUploaded.

(** The control that raises the event is rendered and enabled, or the
    awaited request exists. *)
Definition enabled (e : Event) (w : World) : bool :=
  let s := ui w in
  match e with
  | SearchParams _ => true
  | PreviousPage => negb (Params.page (params s) =? 1)
  | NextPage =>
      negb (Params.page (params s) >=? totalPages (paginationMeta s))
  | TracksSettled _ => Nat.ltb 0 (tracksInFlight w)
  | GenresSettled _ => Nat.ltb 0 (genresInFlight w)
  | SelectTrack id => rowsShown s && includes (visibleIds s) id
  | SelectAll => true
  | PlayTrack id => canPlay s id
  | DeleteTrack id => rowsShown s && includes (visibleIds s) id
  | BulkDelete => Nat.ltb 0 (List.length (selectedTrackIds s))
  | ConfirmDelete _ => isConfirmDialogOpen s
  | CancelDelete => isConfirmDialogOpen s
  | Retry => truthy (error s)
  | OpenCreate => true
  | CloseCreate => ModalState.isOpen (createModal s)
  | TrackCreated _ => ModalState.isOpen (createModal s)
  | EditTrack row =>
      rowsShown s
      && match nth_error (tracks s) row with Some _ => true | None => false end
  | CloseEdit => ModalState.isOpen (editModal s)
  | TrackUpdated _ =>
      ModalState.isOpen (editModal s)
      && match currentTrack s with Some _ => true | None => false end
  | FileUploaded =>
      ModalState.isOpen (createModal s)
      || (ModalState.isOpen (editModal s)
          && match currentTrack s with Some _ => true | None => false end)
  end.

(** The handler an event runs. *)
Definition handle (e : Event) : Update := fun s =>
  match e with
  | SearchParams newParams => handleSearchParams newParams s
  | PreviousPage => handlePageChange (Params.page (params s) - 1) s
  | NextPage => handlePageChange (Params.page (params s) + 1) s
  | TracksSettled get => fetchTracks_settle get s
  | GenresSettled get => fetchGenres_settle get s
  | SelectTrack id => handleSelectTrack id s
  | SelectAll => handleSelectAll s
  | PlayTrack id => handlePlayTrack id s
  | DeleteTrack id => handleDeleteTrack id s
  | BulkDelete => handleBulkDelete s
  | ConfirmDelete reply => runConfirmAction reply s
  | CancelDelete => setIsConfirmDialogOpen false s
  | Retry => retry s
  | OpenCreate => setCreateModal ModalState.open s
  | CloseCreate => setCreateModal ModalState.close s
  | TrackCreated newTrack => handleTrackCreate newTrack s
  | EditTrack row =>
      match nth_error (tracks s) row with
      | Some track => handleEditTrack track s
      | None => s
      end
  | CloseEdit => setEditModal ModalState.close s
  | TrackUpdated updatedTrack => handleUpdateTrack updatedTrack s
  | FileUploaded => s
  end.

(** The effect [useEffect(fetchTracks, [fetchTracks, refreshTrigger])]
    runs after a render in which [params] is a new object or
    [refreshTrigger] has changed. *)
Definition fetchEffectFires (before after : State) : bool :=
  negb (Nat.eqb (paramsRef before) (paramsRef after))
  || negb (refreshTrigger before =? refreshTrigger after).

Definition step (e : Event) (w : World) : World :=
  let s' := handle e (ui w) in
  let starts :=
    match e with
    | FileUploaded => true
    | _ => fetchEffectFires (ui w) s'
    end in
  let settledTracks :=
    match e with TracksSettled _ => 1%nat | _ => 0%nat end in
  let settledGenres :=
    match e with GenresSettled _ => 1%nat | _ => 0%nat end in
  {| ui := if starts then fetchTracks_begin s' else s';
     tracksInFlight :=
       ((tracksInFlight w - settledTracks)
        + if starts then 1 else 0)%nat;
     genresInFlight := (genresInFlight w - settledGenres)%nat |}.

(** After mounting: both effects have run once. *)
Definition mounted : World :=
  {| ui := fetchTracks_begin initialState;
     tracksInFlight := 1;
     genresInFlight := 1 |}.

Inductive reachable : World -> Prop :=
| reachable_mounted : reachable mounted
| reachable_step e w :
    reachable w -> enabled e w = true -> reachable (step e w).

(** Runs a trace, refusing an event that is not enabled. *)
Fixpoint run (trace : list Event) (w : World) : option World :=
  match trace with
  | [] => Some w
  | e :: rest => if enabled e w then run rest (step e w) else None
  end.

End TracksList.

(** ** components/CreateTrackModal and components/EditTrackModal *)

Module Draft.

(** The fields of a browser [File] the dialogs read. *)
Record File := {
  name : string;
  type : string;
  size : Z
}.

(** The [form] cell; both dialogs declare the same shape. *)
Record Form := {
  title : string;
  artist : string;
  album : string;
  genres : list string;
  coverImage : string;
  audioFile : option File
}.

(** [{ ...form, audioFile: file }] *)
Definition with_audioFile (form : Form) (file : File) : Form :=
  {| title := title form; artist := artist form; album := album form;
     genres := genres form; coverImage := coverImage form;
     audioFile := Some file |}.

Definition blank : Form :=
  {| title := EmptyString; artist := EmptyString; album := EmptyString;
     genres := []; coverImage := EmptyString; audioFile := None |}.

(** [10 * 1024 * 1024] *)
Definition maxSize : Z := 10 * 1024 * 1024.

Definition allowedTypes : list string :=
  ["audio/mpeg"%string; "audio/wav"%string].

(** [{ ...form, genres: gs }] *)
Definition with_genres (form : Form) (gs : list string) : Form :=
  {| title := title form; artist := artist form; album := album form;
     genres := gs; coverImage := coverImage form;
     audioFile := audioFile form |}.

(** The [name] attributes of the text inputs of the dialogs. *)
Inductive InputName :=
| NameTitle
| NameArtist
| NameAlbum
| NameCoverImage.

(** [{ ...form, [name]: value }] *)
Definition with_input (form : Form) (name : InputName) (value : string)
  : Form :=
  {| title := match name with NameTitle => value | _ => title form end;
     artist := match name with NameArtist => value | _ => artist form end;
     album := match name with NameAlbum => value | _ => album form end;
     genres := genres form;
     coverImage :=
       match name with NameCoverImage => value | _ => coverImage form end;
     audioFile := audioFile form |}.

(** What a dialog does to the outside: the remote calls it issues and the
    callbacks of its parent it invokes, in order. *)
Inductive Effect :=
| CallCreateTrack (title artist album : string) (genres : list string)
                  (coverImage : string)
| CallUpdateTrack (id title artist album : string) (genres : list string)
                  (coverImage : string)
| CallUploadTrackFile (id : string) (file : File)
| CallDeleteAudiofile (id : string)
| OnFileUpload (fileUrl : option string)
| OnCreate (newTrack : Track.TrackProps)
| OnUpdate (updatedTrack : Track.TrackCardProps)
| OnClose.

End Draft.

Module CreateTrackModal.
Import Js.

Record State := {
  form : Draft.Form;
  availableGenres : list string;
  error : option string
}.

Definition initialState : State :=
  {| form := Draft.blank; availableGenres := []; error := None |}.

Definition setForm (v : Draft.Form) (s : State) : State :=
  {| form := v; availableGenres := availableGenres s; error := error s |}.

Definition setError (v : option string) (s : State) : State :=
  {| form := form s; availableGenres := availableGenres s; error := v |}.

(** [files] is [e.target.files?.[0]]. *)
Definition handleFileChange (files : option Draft.File) (s : State)
  : State :=
  match files with
  | Some file =>
      if negb (includes Draft.allowedTypes (Draft.type file))
      then setError (Some "File must be mp3 or wav"%string) s
      else if Draft.size file >? Draft.maxSize
      then setError (Some "File size must be less than 10MB"%string) s
      else setError None (setForm (Draft.with_audioFile (form s) file) s)
  | None => s
  end.

Definition handleChange (name : Draft.InputName) (value : string)
           (s : State) : State :=
  setForm (Draft.with_input (form s) name value) s.

Definition handleGenreChange (selectedGenre : string) (s : State) : State :=
  if nonEmpty selectedGenre
     && negb (includes (Draft.genres (form s)) selectedGenre)
  then setForm (Draft.with_genres (form s)
                  (Draft.genres (form s) ++ [selectedGenre])) s
  else s.

Definition removeGenre (genre : string) (s : State) : State :=
  setForm (Draft.with_genres (form s)
             (filter (fun g => negb (String.eqb g genre))
                     (Draft.genres (form s)))) s.

Import Ascii.


(** [https?:\/\/.*\.(?:png|jpg|jpeg|gif|webp)] *)
Definition urlPattern : Regex.t :=
  Regex.Seq (Regex.word "http")
    (Regex.Seq (Regex.Opt (Regex.Chr "s"%char))
       (Regex.Seq (Regex.word "://")
          (Regex.Seq (Regex.Star Regex.Dot)
             (Regex.Seq (Regex.Chr "."%char)
                (Regex.Alt (Regex.word "png")
                   (Regex.Alt (Regex.word "jpg")
                      (Regex.Alt (Regex.word "jpeg")
                         (Regex.Alt (Regex.word "gif")
                                    (Regex.word "webp"))))))))).

(** [/^(...)$/i.test(url)] *)
Definition validateImageUrl (url : string) : bool :=
  Regex.whole true urlPattern url.

Definition defaultCover : string :=
  "https://upload.wikimedia.org/wikipedia/en/5/57/RecordWithoutACover.png".

(** The message of the catch block: [e instanceof Error ? e.message :
    "Error"]. *)
Definition caught (e : Thrown) : string :=
  match e with
  | ErrorObj message => message
  | OtherValue => "Error"%string
  end.

(** [handleSubmit]; [createReply] and [uploadReply] are what the two
    requests settle with, should they be issued. *)
Definition handleSubmit
           (createReply : Settled (Api.AxiosResponse Track.TrackProps))
           (uploadReply : Settled (Api.AxiosResponse Api.Uploaded))
           (s : State) : State * list Draft.Effect :=
  if negb (nonEmpty (Draft.title (form s)))
     || negb (nonEmpty (Draft.artist (form s)))
  then (setError (Some "Track title and artist are required"%string) s, [])
  else if nonEmpty (Draft.coverImage (form s))
          && negb (validateImageUrl (Draft.coverImage (form s)))
  then (setError
          (Some "Cover image URL must be a valid image URL (png, jpg, jpeg, gif, webp)"%string)
          s, [])
  else
    let create :=
      Draft.CallCreateTrack
        (Draft.title (form s)) (Draft.artist (form s))
        (Draft.album (form s)) (Draft.genres (form s))
        (if nonEmpty (Draft.coverImage (form s))
         then Draft.coverImage (form s) else defaultCover) in
    match Api.createTrack createReply with
    | Resolved newTrack =>
        match Draft.audioFile (form s) with
        | Some file =>
            let upload :=
              Draft.CallUploadTrackFile
                (Track.id (Track.card newTrack)) file in
            match Api.uploadTrackFile uploadReply with
            | Resolved _ =>
                (s, [create; upload; Draft.OnFileUpload None;
                     Draft.OnCreate newTrack])
            | Rejected e => (setError (Some (caught e)) s, [create; upload])
            end
        | None => (s, [create; Draft.OnCreate newTrack])
        end
    | Rejected e => (setError (Some (caught e)) s, [create])
    end.

End CreateTrackModal.

Module EditTrackModal.
Import Js.

Record State := {
  form : Draft.Form;
  availableGenres : list string;
  error : option string;
  isDeletedFile : bool
}.

Definition initialState : State :=
  {| form := Draft.blank; availableGenres := []; error := None;
     isDeletedFile := false |}.

Definition setForm (v : Draft.Form) (s : State) : State :=
  {| form := v; availableGenres := availableGenres s; error := error s;
     isDeletedFile := isDeletedFile s |}.

Definition setError (v : option string) (s : State) : State :=
  {| form := form s; availableGenres := availableGenres s; error := v;
     isDeletedFile := isDeletedFile s |}.

(** [files] is [e.target.files?.[0]]. *)
Definition handleFileChange (files : option Draft.File) (s : State)
  : State :=
  match files with
  | Some file =>
      if negb (includes Draft.allowedTypes (Draft.type file))
      then setError (Some "File must be mp3 or wav"%string) s
      else if Draft.size file >? Draft.maxSize
      then setError (Some "File size must be less than 10MB"%string) s
      else setError None (setForm (Draft.with_audioFile (form s) file) s)
  | None => s
  end.

Definition setAvailableGenres (v : list string) (s : State) : State :=
  {| form := form s; availableGenres := v; error := error s;
     isDeletedFile := isDeletedFile s |}.

Definition setIsDeletedFile (v : bool) (s : State) : State :=
  {| form := form s; availableGenres := availableGenres s; error := error s;
     isDeletedFile := v |}.

(** The effect run when the dialog opens on [track]: the draft is filled
    from the track, with no pending file. *)
Definition openWith (track : Track.TrackCardProps) (s : State) : State :=
  setForm {| Draft.title := Track.title track;
             Draft.artist := Track.artist track;
             Draft.album := Track.album track;
             Draft.genres := Track.genres track;
             Draft.coverImage := Track.coverImage track;
             Draft.audioFile := None |} s.

(** ... and the genre list it asks for, once settled. *)
Definition genresSettled
           (get : Settled (Api.AxiosResponse (list string))) (s : State)
  : State :=
  match Api.getGenres get with
  | Resolved genres => setAvailableGenres genres s
  | Rejected _ => setError (Some "Error during genres download"%string) s
  end.

Definition handleChange (name : Draft.InputName) (value : string)
           (s : State) : State :=
  setForm (Draft.with_input (form s) name value) s.

(** [handleDeleteFile]; [describe e] stands for the conversion of the
    thrown value to a string in ["Error deleting audio file" + e]. *)
Definition handleDeleteFile (describe : Thrown -> string)
           (track : Track.TrackCardProps)
           (reply : Settled (Api.AxiosResponse unit)) (s : State)
  : State * list Draft.Effect :=
  if negb (isDeletedFile s)
  then
    match Api.deleteAudiofile reply with
    | Resolved _ =>
        (setIsDeletedFile true s, [Draft.CallDeleteAudiofile (Track.id track)])
    | Rejected e =>
        (setError
           (Some ("Error deleting audio file" ++ describe e)%string) s,
         [Draft.CallDeleteAudiofile (Track.id track)])
    end
  else (s, []).

Definition handleGenreChange (selectedGenre : string) (s : State) : State :=
  if negb (includes (Draft.genres (form s)) selectedGenre)
  then setForm (Draft.with_genres (form s)
                  (Draft.genres (form s) ++ [selectedGenre])) s
  else s.

Definition removeGenre (genre : string) (s : State) : State :=
  setForm (Draft.with_genres (form s)
             (filter (fun g => negb (String.eqb g genre))
                     (Draft.genres (form s)))) s.

Import Ascii.

(** [https?:\/\/] *)
Definition schemePattern : Regex.t :=
  Regex.Seq (Regex.word "http")
    (Regex.Seq (Regex.Opt (Regex.Chr "s"%char)) (Regex.word "://")).

(** [/^https?:\/\//.test(url)] *)
Definition hasScheme (url : string) : bool :=
  Regex.start false schemePattern url.

(** The message of the catch block: [e instanceof Error ? e.message :
    "Editing error"]. *)
Definition caught (e : Thrown) : string :=
  match e with
  | ErrorObj message => message
  | OtherValue => "Editing error"%string
  end.

(** [handleSubmit]; [updateReply] and [uploadReply] are what the two
    requests settle with, should they be issued. *)
Definition handleSubmit (track : Track.TrackCardProps)
           (updateReply : Settled (Api.AxiosResponse Track.TrackCardProps))
           (uploadReply : Settled (Api.AxiosResponse Api.Uploaded))
           (s : State) : State * list Draft.Effect :=
  if negb (nonEmpty (Draft.title (form s)))
     || negb (nonEmpty (Draft.artist (form s)))
  then (setError (Some "Title and artist are required"%string) s, [])
  else if nonEmpty (Draft.coverImage (form s))
          && negb (hasScheme (Draft.coverImage (form s)))
  then (setError (Some "Incorrect image link"%string) s, [])
  else
    let update :=
      Draft.CallUpdateTrack
        (Track.id track)
        (Draft.title (form s)) (Draft.artist (form s))
        (Draft.album (form s)) (Draft.genres (form s))
        (Draft.coverImage (form s)) in
    match Api.updateTrack updateReply with
    | Resolved updatedTrack =>
        match Draft.audioFile (form s) with
        | Some file =>
            let upload := Draft.CallUploadTrackFile (Track.id track) file in
            match Api.uploadTrackFile uploadReply with
            | Resolved uploadedFile =>
                (s, [update; upload;
                     Draft.OnFileUpload (Some (Api.fileUrl uploadedFile));
                     Draft.OnUpdate updatedTrack; Draft.OnClose])
            | Rejected e => (setError (Some (caught e)) s, [update; upload])
            end
        | None => (s, [update; Draft.OnUpdate updatedTrack; Draft.OnClose])
        end
    | Rejected e => (setError (Some (caught e)) s, [update])
    end.

(** [handleClose] *)
Definition handleClose (s : State) : State * list Draft.Effect :=
  (setForm Draft.blank (setError None (setIsDeletedFile false s)),
   [Draft.OnClose]).

(** [handleSave]: [handleSubmit], then [setIsDeletedFile(false)]. *)
Definition handleSave (track : Track.TrackCardProps)
           (updateReply : Settled (Api.AxiosResponse Track.TrackCardProps))
           (uploadReply : Settled (Api.AxiosResponse Api.Uploaded))
           (s : State) : State * list Draft.Effect :=
  let (s', effects) := handleSubmit track updateReply uploadReply s in
  (setIsDeletedFile false s', effects).

End EditTrackModal.

(** ** components/Header *)

Module Header.

Record State := {
  searchTerm : string;
  showFilters : bool
}.

(** The header as first rendered with the controller's parameters. *)
Definition initialState (currentParams : Params.t) : State :=
  {| searchTerm := Params.search currentParams; showFilters := false |}.

Definition setSearchTerm (v : string) (h : State) : State :=
  {| searchTerm := v; showFilters := showFilters h |}.

(** A partial change holding one key. *)
Definition only_search (v : string) : Params.partial :=
  {| Params.p_search := Some v; Params.p_sort := None;
     Params.p_order := None; Params.p_genre := None;
     Params.p_artist := None; Params.p_page := None;
     Params.p_limit := None; Params.p_totalPages := None |}.
Definition only_sort (v : string) : Params.partial :=
  {| Params.p_search := None; Params.p_sort := Some v;
     Params.p_order := None; Params.p_genre := None;
     Params.p_artist := None; Params.p_page := None;
     Params.p_limit := None; Params.p_totalPages := None |}.
Definition only_order (v : string) : Params.partial :=
  {| Params.p_search := None; Params.p_sort := None;
     Params.p_order := Some v; Params.p_genre := None;
     Params.p_artist := None; Params.p_page := None;
     Params.p_limit := None; Params.p_totalPages := None |}.
Definition only_genre (v : string) : Params.partial :=
  {| Params.p_search := None; Params.p_sort := None;
     Params.p_order := None; Params.p_genre := Some v;
     Params.p_artist := None; Params.p_page := None;
     Params.p_limit := None; Params.p_totalPages := None |}.
Definition only_artist (v : string) : Params.partial :=
  {| Params.p_search := None; Params.p_sort := None;
     Params.p_order := None; Params.p_genre := None;
     Params.p_artist := Some v; Params.p_page := None;
     Params.p_limit := None; Params.p_totalPages := None |}.

(** The handlers, as the argument they hand to [onChangeParams]. *)
Definition handleSearch (h : State) : Params.partial :=
  only_search (searchTerm h).
Definition handleSortChange (value : string) : Params.partial :=
  only_sort value.
Definition handleOrderChange (value : string) : Params.partial :=
  only_order value.
Definition handleGenreChange (value : string) : Params.partial :=
  only_genre value.
Definition handleArtistChange (value : string) : Params.partial :=
  only_artist value.

(** What the user does in the header. *)
Inductive Input :=
| SubmitSearch
| ChooseSort (value : string)
| ChooseOrder (value : string)
| ChooseGenre (value : string)
| TypeArtist (value : string).

Definition change (h : State) (i : Input) : Params.partial :=
  match i with
  | SubmitSearch => handleSearch h
  | ChooseSort value => handleSortChange value
  | ChooseOrder value => handleOrderChange value
  | ChooseGenre value => handleGenreChange value
  | TypeArtist value => handleArtistChange value
  end.

(** The [allSelected] prop the controller computes for the header. *)
Definition allSelected (s : TracksList.State) : bool :=
  (0 <? Z.of_nat (List.length (TracksList.tracks s)))
  && forallb (fun track =>
                Js.includes (TracksList.selectedTrackIds s) (Track.id track))
             (TracksList.tracks s).

(** The bulk delete button is rendered. *)
Definition bulkDeleteShown (s : TracksList.State) : bool :=
  0 <? Z.of_nat (List.length (TracksList.selectedTrackIds s)).

End Header.

(** ** components/Track *)

Module TrackRow.
Import Ascii.

Definition defaultImage : string :=
  "https://via.placeholder.com/48?text=No+Image".

(** The [src] of the cover. *)
Definition coverSrc (coverImage : string) : string :=
  if Js.nonEmpty coverImage then coverImage else defaultImage.



(** The player is rendered: [isPlaying && audioFile]. *)
Definition playerShown (isPlaying : bool) (audioFile : option string)
  : bool :=
  isPlaying && Js.truthy audioFile.

(** The play button is disabled: [!audioFile]. *)
Definition playDisabled (audioFile : option string) : bool :=
  negb (Js.truthy audioFile).

End TrackRow.

(** ** How the controller wires the dialogs

    [CreateTrackModal] is rendered with [onClose = createModal.close],
    [onCreate = handleTrackCreate] and [onFileUpload = fetchTracks];
    [EditTrackModal] with [onClose = editModal.close],
    [onUpdate = handleUpdateTrack] and [onFileUpload = fetchTracks]. *)

Module Wiring.

Inductive Dialog := Create | Edit.

(** The event of the controller a dialog effect raises; the remote calls
    raise none. *)
Definition eventOf (d : Dialog) (eff : Draft.Effect)
  : option TracksList.Event :=
  match eff with
  | Draft.OnFileUpload _ => Some TracksList.FileUploaded
  | Draft.OnCreate newTrack => Some (TracksList.TrackCreated newTrack)
  | Draft.OnUpdate updatedTrack => Some (TracksList.TrackUpdated updatedTrack)
  | Draft.OnClose =>
      Some match d with
           | Create => TracksList.CloseCreate
           | Edit => TracksList.CloseEdit
           end
  | _ => None
  end.

(** The controller after the effects of a dialog, in order. *)
Definition deliver (d : Dialog) (effects : list Draft.Effect)
           (w : TracksList.World) : TracksList.World :=
  fold_left (fun w eff =>
               match eventOf d eff with
               | Some e => TracksList.step e w
               | None => w
               end)
            effects w.

End Wiring.

(** * Vocabulary of the properties *)

Module Spec.
Import Js TracksList.

(** Every id in the selection is the id of a track on the loaded page. *)
Definition selectionWithinPage (s : State) : Prop :=
  incl (selectedTrackIds s) (visibleIds s).

(** Every track on the loaded page is selected. *)
Definition allSelected (s : State) : Prop :=
  forall track, In track (tracks s) ->
                In (Track.id track) (selectedTrackIds s).



(** The values captured by the stored confirm action are those of the
    current state (the action was stored by the latest render). *)
Definition closureCurrent (s : State) : Prop :=
  match confirmAction s with
  | NoAction => True
  | DeleteTrackAction _ sel => sel = selectedTrackIds s
  | BulkDeleteAction trs sel prm =>
      trs = tracks s /\ sel = selectedTrackIds s /\ prm = params s
  end.

(** At most one id is shown as playing among the rows. *)
Definition atMostOnePlaying (s : State) : Prop :=
  forall t1 t2, In t1 (tracks s) -> In t2 (tracks s) ->
                isPlaying s t1 = true -> isPlaying s t2 = true ->
                Track.id t1 = Track.id t2.

(** Some track on the page has this id and an audio file. *)
Definition hasAudio (s : State) (id : string) : Prop :=
  exists track, In track (tracks s) /\ Track.id track = id
                /\ truthy (Track.audioFile track) = true.

(** If the playback pointer is set, the track it names has an audio
    file. *)
Definition playingHasAudio (s : State) : Prop :=
  match playingTrackId s with
  | Some id => hasAudio s id
  | None => True
  end.


(** The predicate [track => !selectedTrackIds.includes(track.id)] of the
    bulk delete. *)
Definition unselected (sel : list string) (track : Track.TrackCardProps) : bool :=
  negb (includes sel (Track.id track)).

(** The predicate [track => track.id !== id] of the single delete. *)
Definition otherThan (id : string) (track : Track.TrackCardProps) : bool :=
  negb (String.eqb (Track.id track) id).

Definition isTracksSettled (e : Event) : bool :=
  match e with TracksSettled _ => true | _ => false end.

(** The draft of the create dialog passes the checks made before any
    request: title and artist are not empty and the cover is empty or an
    accepted URL. *)
Definition createReady (s : CreateTrackModal.State) : bool :=
  nonEmpty (Draft.title (CreateTrackModal.form s))
  && nonEmpty (Draft.artist (CreateTrackModal.form s))
  && (negb (nonEmpty (Draft.coverImage (CreateTrackModal.form s)))
      || CreateTrackModal.validateImageUrl
           (Draft.coverImage (CreateTrackModal.form s))).

(** The same for the edit dialog, with its own check of the cover. *)
Definition editReady (s : EditTrackModal.State) : bool :=
  nonEmpty (Draft.title (EditTrackModal.form s))
  && nonEmpty (Draft.artist (EditTrackModal.form s))
  && (negb (nonEmpty (Draft.coverImage (EditTrackModal.form s)))
      || EditTrackModal.hasScheme
           (Draft.coverImage (EditTrackModal.form s))).

(** The call the create dialog opens with: the draft's fields, the cover
    replaced by the default one when empty. *)
Definition createCall (s : CreateTrackModal.State) : Draft.Effect :=
  Draft.CallCreateTrack
    (Draft.title (CreateTrackModal.form s))
    (Draft.artist (CreateTrackModal.form s))
    (Draft.album (CreateTrackModal.form s))
    (Draft.genres (CreateTrackModal.form s))
    (if nonEmpty (Draft.coverImage (CreateTrackModal.form s))
     then Draft.coverImage (CreateTrackModal.form s)
     else CreateTrackModal.defaultCover).

(** The call the edit dialog opens with: the id of the track it was
    opened on and the draft's fields. *)
Definition updateCall (track : Track.TrackCardProps)
           (s : EditTrackModal.State) : Draft.Effect :=
  Draft.CallUpdateTrack
    (Track.id track)
    (Draft.title (EditTrackModal.form s))
    (Draft.artist (EditTrackModal.form s))
    (Draft.album (EditTrackModal.form s))
    (Draft.genres (EditTrackModal.form s))
    (Draft.coverImage (EditTrackModal.form s)).

(** The request is a remote call. *)
Definition isCall (eff : Draft.Effect) : bool :=
  match eff with
  | Draft.CallCreateTrack _ _ _ _ _ => true
  | Draft.CallUpdateTrack _ _ _ _ _ _ => true
  | Draft.CallUploadTrackFile _ _ => true
  | Draft.CallDeleteAudiofile _ => true
  | _ => false
  end.

(** What is on screen besides the dialogs is the same in both states. *)
Definition sameList (s s' : State) : Prop :=
  tracks s' = tracks s
  /\ paginationMeta s' = paginationMeta s
  /\ selectedTrackIds s' = selectedTrackIds s
  /\ params s' = params s
  /\ paramsRef s' = paramsRef s
  /\ refreshTrigger s' = refreshTrigger s
  /\ error s' = error s
  /\ playingTrackId s' = playingTrackId s.

End Spec.

(** * Sample data *)

Module Sample.
Import Js TracksList.

Definition track (id : string) (audioFile : option string)
  : Track.TrackCardProps :=
  {| Track.id := id; Track.title := id; Track.artist := "artist";
     Track.album := EmptyString; Track.genres := [];
     Track.coverImage := EmptyString; Track.audioFile := audioFile;
     Track.createdAt := "2025-04-25T10:00:00.000Z" |}.

Definition a : Track.TrackCardProps := track "a" (Some "a.mp3"%string).
Definition b : Track.TrackCardProps := track "b" None.
Definition c : Track.TrackCardProps := track "c" None.
Definition a_without_audio : Track.TrackCardProps := track "a" None.

(** A successful answer of the list endpoint. *)
Definition listed (page : list Track.TrackCardProps) (total totalPages : Z)
  : Settled (Api.AxiosResponse Api.TracksPage) :=
  Resolved {| Api.data :=
    {| Api.page_data := page;
       Api.page_meta := {| Api.total := total;
                           Api.totalPages := totalPages |} |} |}.

Definition deleted : DeleteReply := Resolved {| Api.data := tt |}.

Definition networkError : DeleteReply :=
  Rejected (ErrorObj "Network Error").

(** Three tracks over two pages of two: the first page is loaded. *)
Definition firstPageLoaded : list Event :=
  [TracksSettled (listed [a; b] 3 2)].

(** ... [a] is selected, then the second page is loaded. *)
Definition secondPageWithOldSelection : list Event :=
  firstPageLoaded
  ++ [SelectTrack "a"; NextPage; TracksSettled (listed [c] 3 2)].



(** The second page, holding one track, nothing selected. *)
Definition secondPageLoaded : list Event :=
  firstPageLoaded ++ [NextPage; TracksSettled (listed [c] 3 2)].


(** [a] is selected on the first page and a bulk delete is requested. *)
Definition bulkDeleteRequested : list Event :=
  firstPageLoaded ++ [SelectTrack "a"; BulkDelete].

(** The delete of [a] is requested through its row. *)
Definition rowDeleteRequested : list Event :=
  firstPageLoaded ++ [DeleteTrack "a"].

(** The change the sort selector of the header hands over. *)
Definition sortByArtist : Params.partial :=
  {| Params.p_search := None; Params.p_sort := Some "artist"%string;
     Params.p_order := None; Params.p_genre := None;
     Params.p_artist := None; Params.p_page := None;
     Params.p_limit := None; Params.p_totalPages := None |}.

(** [a] is playing, then a reload (here after a change of the sort key)
    lists it without its audio file. *)
Definition playingThenAudioGone : list Event :=
  [TracksSettled (listed [a; b] 2 1); PlayTrack "a";
   SearchParams sortByArtist;
   TracksSettled (listed [a_without_audio; b] 2 1)].

Definition smallMp3 : Draft.File :=
  {| Draft.name := "take.mp3"; Draft.type := "audio/mpeg";
     Draft.size := 3 * 1024 * 1024 |}.


(** A filled draft of the create dialog, without and with a file. *)
Definition filledDraft : CreateTrackModal.State :=
  CreateTrackModal.handleChange Draft.NameArtist "Nina"
    (CreateTrackModal.handleChange Draft.NameTitle "Blue"
       CreateTrackModal.initialState).

Definition filledDraftWithAudio : CreateTrackModal.State :=
  CreateTrackModal.handleFileChange (Some smallMp3) filledDraft.

(** The track the server answers a creation with. *)
Definition created : Track.TrackProps :=
  {| Track.card := track "n" None; Track.slug := "blue";
     Track.updatedAt := "2025-04-25T10:00:00.000Z" |}.

Definition createdReply : Settled (Api.AxiosResponse Track.TrackProps) :=
  Resolved {| Api.data := created |}.

Definition uploadedReply : Settled (Api.AxiosResponse Api.Uploaded) :=
  Resolved {| Api.data := {| Api.fileUrl := "n.mp3" |} |}.

Definition uploadRefused : Settled (Api.AxiosResponse Api.Uploaded) :=
  Rejected (ErrorObj "Request failed with status code 500").

(** The edit dialog opened on [a], and with a new file attached. *)
Definition editingA : EditTrackModal.State :=
  EditTrackModal.openWith a EditTrackModal.initialState.

Definition editingAWithAudio : EditTrackModal.State :=
  EditTrackModal.handleFileChange (Some smallMp3) editingA.

(** What the server answers an update of [a] with. *)
Definition updatedReply : Settled (Api.AxiosResponse Track.TrackCardProps) :=
  Resolved {| Api.data := a_without_audio |}.

(** The string conversion of a thrown value, as far as the samples need
    it. *)
Definition describe (e : Thrown) : string :=
  match e with
  | ErrorObj message => ("Error: " ++ message)%string
  | OtherValue => "undefined"%string
  end.


(** Where a trace leads from the mounted component (the traces used
    below are checked to run through). *)
Definition world (trace : list Event) : World :=
  match run trace mounted with
  | Some w => w
  | None => mounted
  end.

Definition after (trace : list Event) : State := ui (world trace).

End Sample.

(** * Properties *)

Section Lists.
Import Js.

Lemma includes_In (arr : list string) (x : string) :
  includes arr x = true <-> In x arr.
Proof.
  unfold includes. rewrite existsb_exists. split.
  - intros [y [Hy He]]. apply String.eqb_eq in He. now subst.
  - intros H. exists x. split; [assumption | apply String.eqb_refl].
Qed.

Lemma includes_not_In (arr : list string) (x : string) :
  includes arr x = false <-> ~ In x arr.
Proof.
  rewrite <- includes_In. destruct (includes arr x); split; congruence.
Qed.

(** [arr.filter(y => y !== x)] keeps exactly the members other than
    [x]. *)
Lemma In_filter_neq (arr : list string) (x y : string) :
  In y (filter (fun z => negb (String.eqb z x)) arr) <-> In y arr /\ y <> x.
Proof.
  rewrite filter_In. rewrite negb_true_iff, String.eqb_neq. tauto.
Qed.

Lemma filter_neq_absent (arr : list string) (x : string) :
  ~ In x arr -> filter (fun z => negb (String.eqb z x)) arr = arr.
Proof.
  induction arr as [|y arr IH]; intros H; cbn; [reflexivity|].
  destruct (String.eqb_spec y x) as [->|Hne]; cbn.
  - exfalso. apply H. now left.
  - f_equal. apply IH. intros Hin. apply H. now right.
Qed.

End Lists.

(** ** Modal state helper *)

(** C10: whatever the prior state, [open] gives the open state and [close]
    the closed one, and two [toggle]s give the prior state back. *)
Theorem modal_open_close_toggle (m : ModalState.t) :
  ModalState.isOpen (ModalState.open m) = true
  /\ ModalState.isOpen (ModalState.close m) = false
  /\ ModalState.open m = {| ModalState.isOpen := true |}
  /\ ModalState.close m = {| ModalState.isOpen := false |}
  /\ ModalState.toggle (ModalState.toggle m) = m.
Proof.
  destruct m as [b].
  unfold ModalState.open, ModalState.close, ModalState.toggle,
    ModalState.setIsOpen; cbn.
  rewrite negb_involutive.
  repeat split.
Qed.

(** ** Audio file attachment in the dialogs *)

Section Attach.
Import Js.






End Attach.



(** ** Query parameters *)

(** C6: whatever partial change is handed to the parameter-change
    operation (a [page] key included), the page afterwards is 1; this is
    also the page after the event has been processed and its reload
    started. *)
Theorem parameter_change_resets_page
        (newParams : Params.partial) (s : TracksList.State) :
  Params.page (TracksList.params (TracksList.handleSearchParams newParams s))
  = 1
  /\ forall w,
       Params.page
         (TracksList.params
            (TracksList.ui
               (TracksList.step (TracksList.SearchParams newParams) w)))
       = 1.
Proof.
  split; [reflexivity|].
  intros w. unfold TracksList.step.
  destruct (TracksList.fetchEffectFires _ _); reflexivity.
Qed.

(** ** Select all *)

Section SelectAll.
Import Js TracksList.

Lemma allSelected_forallb (s : State) :
  forallb (fun track => includes (selectedTrackIds s) (Track.id track))
          (tracks s) = true
  <-> Spec.allSelected s.
Proof.
  rewrite forallb_forall. unfold Spec.allSelected.
  split; intros H track Hin; apply includes_In; now apply H.
Qed.

Lemma setSelectedTrackIds_same (s : State) (sel : list string) :
  selectedTrackIds s = sel -> setSelectedTrackIds (fun _ => sel) s = s.
Proof.
  intros <-. destruct s; reflexivity.
Qed.

End SelectAll.

(** C8: select-all clears the selection when every visible track is
    selected and otherwise makes the selection the ids of the visible
    tracks, in page order; with no visible track and an empty selection it
    changes nothing; nothing but the selection ever changes. *)
Theorem select_all_toggles (s : TracksList.State) :
  (Spec.allSelected s ->
   TracksList.selectedTrackIds (TracksList.handleSelectAll s) = [])
  /\ (~ Spec.allSelected s ->
      TracksList.selectedTrackIds (TracksList.handleSelectAll s)
      = TracksList.visibleIds s)
  /\ (TracksList.tracks s = [] -> TracksList.selectedTrackIds s = [] ->
      TracksList.handleSelectAll s = s)
  /\ TracksList.handleSelectAll s
     = TracksList.setSelectedTrackIds
         (fun _ => TracksList.selectedTrackIds (TracksList.handleSelectAll s))
         s.
Proof.
  unfold TracksList.handleSelectAll.
  pose proof (allSelected_forallb s) as Hall.
  match goal with
  | |- context [forallb ?f ?l] => destruct (forallb f l) eqn:E
  end.
  - repeat split.
    + intros Hn. exfalso. apply Hn. now apply Hall.
    + intros _ Hsel. now apply setSelectedTrackIds_same.
  - repeat split.
    + intros Ha. apply Hall in Ha. discriminate.
    + intros Ht. rewrite Ht in E. discriminate.
Qed.

Lemma select_all_toggles_witness :
  TracksList.selectedTrackIds
    (TracksList.handleSelectAll (Sample.after Sample.firstPageLoaded))
  = ["a"%string; "b"%string]
  /\ TracksList.selectedTrackIds
       (TracksList.handleSelectAll
          (TracksList.handleSelectAll (Sample.after Sample.firstPageLoaded)))
     = []
  /\ TracksList.handleSelectAll TracksList.initialState
     = TracksList.initialState.
Proof.
  split.
  { destruct (select_all_toggles (Sample.after Sample.firstPageLoaded))
      as (_ & Hsome & _).
    apply Hsome. intros Hall.
    specialize (Hall Sample.a (or_introl eq_refl)). exact Hall. }
  split.
  { destruct (select_all_toggles
                (TracksList.handleSelectAll
                   (Sample.after Sample.firstPageLoaded)))
      as (Hall & _).
    apply Hall. intros track Hin. vm_compute in Hin. vm_compute.
    destruct Hin as [<- | [<- | []]]; [now left | right; now left]. }
  destruct (select_all_toggles TracksList.initialState) as (_ & _ & Hnoop & _).
  apply Hnoop; reflexivity.
Defined.

(** ** Optimistic single delete *)

Section DeleteOne.
Import Js TracksList.



(** What the stored single-delete action does to the state, whatever
    the remote call answers. *)
Lemma deleteTrackAction_effect
      (id : string) (sel : list string) (reply : DeleteReply) (s : State) :
  let s' := deleteTrackAction id sel reply s in
  tracks s' = filter (Spec.otherThan id) (tracks s)
  /\ total (paginationMeta s') = Z.max 0 (total (paginationMeta s) - 1)
  /\ totalPages (paginationMeta s') = totalPages (paginationMeta s)
  /\ selectedTrackIds s'
     = (if includes sel id
        then filter (fun trackId => negb (String.eqb trackId id))
                    (selectedTrackIds s)
        else selectedTrackIds s)
  /\ params s' = params s
  /\ paramsRef s' = paramsRef s
  /\ playingTrackId s' = playingTrackId s
  /\ isConfirmDialogOpen s' = false.
Proof.
  unfold deleteTrackAction, seq, skip, Api.deleteTrack.
  destruct reply as [r|e]; destruct (includes sel id); cbn;
    repeat split; reflexivity.
Qed.


End DeleteOne.



(** ** Optimistic bulk delete *)

Section BulkDelete.
Import Js TracksList.




(** What the stored bulk-delete action does to the state. *)
Lemma bulkDeleteAction_effect
      (trs : list Track.TrackCardProps) (sel : list string) (prm : Params.t)
      (reply : DeleteReply) (s : State) :
  let s' := bulkDeleteAction trs sel prm reply s in
  let kept := filter (Spec.unselected sel) trs in
  tracks s' = kept
  /\ total (paginationMeta s')
     = Z.max 0 (total (paginationMeta s) - Z.of_nat (List.length sel))
  /\ selectedTrackIds s' = []
  /\ error s' = error s
  /\ playingTrackId s' = playingTrackId s
  /\ isConfirmDialogOpen s' = false
  /\ Params.page (params s')
     = (if Nat.eqb (List.length kept) 0 && (Params.page prm >? 1)
        then Params.page (params s) - 1
        else Params.page (params s))
  /\ refreshTrigger s'
     = (if Nat.eqb (List.length kept) 0 && (Params.page prm >? 1)
        then refreshTrigger s
        else if Nat.eqb (List.length kept) 0
             then refreshTrigger s + 1
             else refreshTrigger s)
  /\ paramsRef s'
     = (if Nat.eqb (List.length kept) 0 && (Params.page prm >? 1)
        then S (paramsRef s)
        else paramsRef s).
Proof.
  intros s' kept. subst s'.
  unfold bulkDeleteAction, seq, skip, Api.deleteTracks, try_catch.
  change (filter (fun track => negb (includes sel (Track.id track))) trs)
    with kept.
  clearbody kept.
  destruct reply as [r|e];
    destruct (Nat.eqb (List.length kept) 0);
    destruct (Params.page prm >? 1); cbn;
    repeat split; reflexivity.
Qed.

Lemma handleBulkDelete_stores (s : State) :
  selectedTrackIds s <> [] ->
  handleBulkDelete s
  = setConfirmAction
      (BulkDeleteAction (tracks s) (selectedTrackIds s) (params s))
      (setIsConfirmDialogOpen true s).
Proof.
  intros Hne. unfold handleBulkDelete.
  destruct (selectedTrackIds s) eqn:E; [congruence|reflexivity].
Qed.

(** The request for confirmation followed by the confirmed action. *)
Lemma bulk_delete_runs (s : State) (reply : DeleteReply) :
  selectedTrackIds s <> [] ->
  runConfirmAction reply (handleBulkDelete s)
  = bulkDeleteAction (tracks s) (selectedTrackIds s) (params s) reply
      (setConfirmAction
         (BulkDeleteAction (tracks s) (selectedTrackIds s) (params s))
         (setIsConfirmDialogOpen true s)).
Proof.
  intros Hne. rewrite (handleBulkDelete_stores s Hne). reflexivity.
Qed.

End BulkDelete.




(** ** A delete that empties the page *)




(** ** A failing bulk delete *)

(** C3 (what the code does): [deleteTracks] turns a rejected request into
    a resolved promise, so the stored bulk-delete action behaves on a
    failing request as on a successful one; on the sample page, with a
    network error, it leaves the error message unset and the reload counter
    as it was, where the single delete sets the message and bumps the
    counter. *)
Theorem bulk_delete_failure_swallowed (e : Js.Thrown) :
  Api.deleteTracks (Js.Rejected e : TracksList.DeleteReply) = Js.Resolved tt
  /\ (forall trs sel prm s,
        TracksList.bulkDeleteAction trs sel prm (Js.Rejected e) s
        = TracksList.bulkDeleteAction trs sel prm Sample.deleted s)
  /\ TracksList.run Sample.bulkDeleteRequested TracksList.mounted <> None
  /\ TracksList.visibleIds
       (TracksList.runConfirmAction Sample.networkError
          (Sample.after Sample.bulkDeleteRequested))
     = ["b"%string]
  /\ TracksList.error
       (TracksList.runConfirmAction Sample.networkError
          (Sample.after Sample.bulkDeleteRequested))
     = None
  /\ TracksList.refreshTrigger
       (TracksList.runConfirmAction Sample.networkError
          (Sample.after Sample.bulkDeleteRequested))
     = TracksList.refreshTrigger (Sample.after Sample.bulkDeleteRequested)
  /\ TracksList.run Sample.rowDeleteRequested TracksList.mounted <> None
  /\ TracksList.error
       (TracksList.runConfirmAction Sample.networkError
          (Sample.after Sample.rowDeleteRequested))
     = Some "Failed to delete track. Please try again."%string
  /\ TracksList.refreshTrigger
       (TracksList.runConfirmAction Sample.networkError
          (Sample.after Sample.rowDeleteRequested))
     = TracksList.refreshTrigger (Sample.after Sample.rowDeleteRequested) + 1.
Proof.
  split; [reflexivity|].
  split; [intros trs sel prm s; reflexivity|].
  vm_compute. repeat split; discriminate.
Qed.

(** ** The transition system *)

Section Steps.
Import Js TracksList.

(** A trace that runs through leads to a reachable world. *)
Lemma run_reachable (trace : list Event) :
  forall w w', reachable w -> run trace w = Some w' -> reachable w'.
Proof.
  induction trace as [|e rest IH]; intros w w' Hw Hrun; cbn in Hrun.
  - now inversion Hrun; subst.
  - destruct (enabled e w) eqn:He; [|discriminate].
    apply (IH (step e w)); [|assumption].
    now apply reachable_step.
Qed.

Lemma world_reachable (trace : list Event) :
  run trace mounted <> None -> reachable (Sample.world trace).
Proof.
  intros Hrun. unfold Sample.world.
  destruct (run trace mounted) as [w|] eqn:E; [|congruence].
  apply (run_reachable trace mounted w); [constructor | assumption].
Qed.

(** Starting a list request touches neither the page, the selection nor
    the playback pointer. *)
Lemma step_observes (e : Event) (w : World) :
  tracks (ui (step e w)) = tracks (handle e (ui w))
  /\ selectedTrackIds (ui (step e w)) = selectedTrackIds (handle e (ui w))
  /\ playingTrackId (ui (step e w)) = playingTrackId (handle e (ui w)).
Proof.
  unfold step. cbn [ui].
  match goal with
  | |- context [if ?b then _ else _] => destruct b
  end; repeat split; reflexivity.
Qed.

(** The ids on the page after an update by id are the ids before it. *)
Lemma update_keeps_ids (updatedTrack : Track.TrackCardProps)
      (trs : list Track.TrackCardProps) :
  map Track.id
      (map (fun track =>
              if String.eqb (Track.id track) (Track.id updatedTrack)
              then updatedTrack else track) trs)
  = map Track.id trs.
Proof.
  rewrite map_map. apply map_ext. intros track.
  destruct (String.eqb_spec (Track.id track) (Track.id updatedTrack));
    congruence.
Qed.

(** The single delete keeps the selection within the page when the
    captured selection is the current one. *)
Lemma deleteTrackAction_within
      (id : string) (reply : DeleteReply) (s : State) :
  Spec.selectionWithinPage s ->
  Spec.selectionWithinPage
    (deleteTrackAction id (selectedTrackIds s) reply s).
Proof.
  intros Hinv.
  destruct (deleteTrackAction_effect id (selectedTrackIds s) reply s)
    as (Etr & _ & _ & Esel & _).
  cbv zeta in Etr, Esel.
  unfold Spec.selectionWithinPage, visibleIds. rewrite Etr, Esel.
  intros x Hx.
  assert (Hboth : In x (selectedTrackIds s) /\ x <> id).
  { destruct (includes (selectedTrackIds s) id) eqn:E.
    - now apply In_filter_neq.
    - split; [assumption|]. apply includes_not_In in E. congruence. }
  destruct Hboth as [Hsel Hne].
  apply Hinv in Hsel. apply in_map_iff in Hsel as (track & Hid & Hmem).
  apply in_map_iff. exists track. split; [assumption|].
  apply filter_In. split; [assumption|].
  unfold Spec.otherThan. apply negb_true_iff, String.eqb_neq. congruence.
Qed.

Lemma handleSelectTrack_within (id : string) (s : State) :
  In id (visibleIds s) ->
  Spec.selectionWithinPage s ->
  Spec.selectionWithinPage (handleSelectTrack id s).
Proof.
  intros Hid Hinv. unfold Spec.selectionWithinPage, handleSelectTrack.
  cbn. change (map Track.id (tracks s)) with (visibleIds s).
  destruct (includes (selectedTrackIds s) id); intros x Hx.
  - apply In_filter_neq in Hx as [Hx _]. now apply Hinv.
  - apply in_app_iff in Hx as [Hx | [<- | []]]; [now apply Hinv | assumption].
Qed.

Lemma handleSelectAll_within (s : State) :
  Spec.selectionWithinPage (handleSelectAll s).
Proof.
  unfold Spec.selectionWithinPage, handleSelectAll.
  match goal with
  | |- context [forallb ?f ?l] => destruct (forallb f l)
  end; cbn.
  - apply incl_nil_l.
  - apply incl_refl.
Qed.

(** Every handler other than the completion of a list request keeps the
    selection within the page. *)
Lemma handle_within (e : Event) (w : World) :
  enabled e w = true ->
  Spec.isTracksSettled e = false ->
  Spec.closureCurrent (ui w) ->
  Spec.selectionWithinPage (ui w) ->
  Spec.selectionWithinPage (handle e (ui w)).
Proof.
  intros Hen Hnot Hcur Hinv. set (s := ui w) in *.
  destruct e; cbn [handle]; try exact Hinv; try discriminate.
  - (* fetchGenres *)
    unfold fetchGenres_settle. destruct (Api.getGenres get); exact Hinv.
  - (* select one *)
    cbn in Hen. apply andb_true_iff in Hen as [_ Hvis].
    apply handleSelectTrack_within; [now apply includes_In | exact Hinv].
  - apply handleSelectAll_within.
  - (* play *)
    unfold handlePlayTrack. destruct (strict_eq _ _); exact Hinv.
  - (* bulk delete request *)
    unfold handleBulkDelete. destruct (Nat.eqb _ _); exact Hinv.
  - (* confirm *)
    unfold runConfirmAction. unfold Spec.closureCurrent in Hcur.
    destruct (confirmAction s) as [|id sel|trs sel prm]; [exact Hinv| |].
    + subst sel. now apply deleteTrackAction_within.
    + destruct (bulkDeleteAction_effect trs sel prm reply s)
        as (_ & _ & Esel & _).
      cbv zeta in Esel. unfold Spec.selectionWithinPage. rewrite Esel.
      apply incl_nil_l.
  - (* created *)
    unfold Spec.selectionWithinPage in *. cbn.
    intros x Hx. right. now apply Hinv.
  - (* edit *)
    destruct (nth_error (tracks s) row); exact Hinv.
  - (* updated *)
    unfold Spec.selectionWithinPage, visibleIds in *. cbn.
    now rewrite update_keeps_ids.
Qed.

End Steps.

(** ** Selection and loaded page *)

(** C2 (as the code has it): every step of the controller other than the
    completion of a list request (parameter change, page change, select,
    select all, play, single and bulk delete with their confirmation,
    cancel, retry, create, edit, update, open and close of the dialogs)
    keeps the selection within the ids of the loaded page, provided the
    stored confirm action captured the current selection. The completion of
    a list request replaces the page by the answer, or empties it on
    failure, and leaves the selection as it was. *)
Theorem selection_within_page_steps :
  (forall (e : TracksList.Event) (w : TracksList.World),
      TracksList.enabled e w = true ->
      Spec.isTracksSettled e = false ->
      Spec.closureCurrent (TracksList.ui w) ->
      Spec.selectionWithinPage (TracksList.ui w) ->
      Spec.selectionWithinPage (TracksList.ui (TracksList.step e w)))
  /\ (forall get (w : TracksList.World),
        TracksList.selectedTrackIds
          (TracksList.ui (TracksList.step (TracksList.TracksSettled get) w))
        = TracksList.selectedTrackIds (TracksList.ui w)
        /\ TracksList.tracks
             (TracksList.ui (TracksList.step (TracksList.TracksSettled get) w))
           = match get with
             | Js.Resolved response => Api.page_data (Api.data response)
             | Js.Rejected _ => []
             end).
Proof.
  split.
  - intros e w Hen Hnot Hcur Hinv.
    pose proof (handle_within e w Hen Hnot Hcur Hinv) as H.
    destruct (step_observes e w) as (Etr & Esel & _).
    unfold Spec.selectionWithinPage, TracksList.visibleIds in *.
    now rewrite Etr, Esel.
  - intros get w.
    destruct (step_observes (TracksList.TracksSettled get) w)
      as (Etr & Esel & _).
    rewrite Etr, Esel. cbn [TracksList.handle].
    unfold TracksList.fetchTracks_settle, Api.getTracks, Js.try_catch.
    destruct get as [response|err]; split; reflexivity.
Qed.

Lemma selection_within_page_steps_witness :
  TracksList.enabled (TracksList.SelectTrack "a")
                     (Sample.world Sample.firstPageLoaded) = true
  /\ Spec.selectionWithinPage
       (TracksList.ui
          (TracksList.step (TracksList.SelectTrack "a")
                           (Sample.world Sample.firstPageLoaded))).
Proof.
  split; [vm_compute; reflexivity|].
  apply (proj1 selection_within_page_steps).
  - vm_compute. reflexivity.
  - reflexivity.
  - vm_compute. exact I.
  - vm_compute. intros x [].
Defined.

(** C2, as stated, fails: select [a] on the first page, go to the next
    page; once the second page is loaded the selection still holds [a],
    which is not on the page. *)
Lemma selection_outside_page_counterexample :
  TracksList.reachable (Sample.world Sample.secondPageWithOldSelection)
  /\ TracksList.selectedTrackIds
       (Sample.after Sample.secondPageWithOldSelection)
     = ["a"%string]
  /\ TracksList.visibleIds (Sample.after Sample.secondPageWithOldSelection)
     = ["c"%string]
  /\ ~ Spec.selectionWithinPage
         (Sample.after Sample.secondPageWithOldSelection).
Proof.
  split.
  { apply world_reachable. vm_compute. discriminate. }
  split; [vm_compute; reflexivity|].
  split; [vm_compute; reflexivity|].
  intros Hinv. specialize (Hinv "a"%string).
  vm_compute in Hinv. destruct Hinv as [Hc | []]; [now left | discriminate].
Qed.

(** ** Playback pointer *)

Section Playback.
Import Js TracksList.

Lemma strict_eq_Some (x : string) (v : option string) :
  strict_eq (Some x) v = true <-> v = Some x.
Proof.
  destruct v as [y|]; cbn; [|split; discriminate].
  rewrite String.eqb_eq. split; congruence.
Qed.

Lemma canPlay_hasAudio (s : State) (id : string) :
  canPlay s id = true -> Spec.hasAudio s id.
Proof.
  unfold canPlay. intros H. apply andb_true_iff in H as [_ H].
  apply existsb_exists in H as (track & Hmem & Hok).
  apply andb_true_iff in Hok as [Hid Haudio].
  apply String.eqb_eq in Hid. now exists track.
Qed.

(** No handler but the play toggle writes the playback pointer. *)
Lemma handle_pointer (e : Event) (s : State) :
  playingTrackId (handle e s)
  = match e with
    | PlayTrack id =>
        if strict_eq (Some id) (playingTrackId s) then None else Some id
    | _ => playingTrackId s
    end.
Proof.
  destruct e; cbn [handle]; try reflexivity.
  - unfold fetchTracks_settle, Api.getTracks, try_catch.
    destruct get; reflexivity.
  - unfold fetchGenres_settle, Api.getGenres, try_catch.
    destruct get; reflexivity.
  - unfold handleSelectAll.
    match goal with
    | |- context [forallb ?f ?l] => destruct (forallb f l)
    end; reflexivity.
  - unfold handlePlayTrack. destruct (strict_eq _ _); reflexivity.
  - unfold handleBulkDelete. destruct (Nat.eqb _ _); reflexivity.
  - unfold runConfirmAction.
    destruct (confirmAction s) as [|id sel|trs sel prm]; [reflexivity| |].
    + now destruct (deleteTrackAction_effect id sel reply s)
        as (_ & _ & _ & _ & _ & _ & Eplay & _).
    + now destruct (bulkDeleteAction_effect trs sel prm reply s)
        as (_ & _ & _ & _ & Eplay & _).
  - destruct (nth_error (tracks s) row); reflexivity.
Qed.

End Playback.

(** C7 (as the code has it): in every state at most one id is shown as
    playing; the play toggle clears the pointer when it names the toggled
    id and otherwise points it at that id; and a step that points the
    pointer at an id it did not name before is the play toggle of a row
    whose track has an audio file, before and after the step. Later steps
    (a reload, a delete, an update) leave the pointer as it is. *)
Theorem playback_pointer_steps :
  (forall s : TracksList.State, Spec.atMostOnePlaying s)
  /\ (forall id s,
        TracksList.playingTrackId (TracksList.handlePlayTrack id s)
        = if Js.strict_eq (Some id) (TracksList.playingTrackId s)
          then None else Some id)
  /\ (forall (e : TracksList.Event) (w : TracksList.World) (id : string),
        TracksList.enabled e w = true ->
        TracksList.playingTrackId (TracksList.ui (TracksList.step e w))
        = Some id ->
        TracksList.playingTrackId (TracksList.ui w) <> Some id ->
        e = TracksList.PlayTrack id
        /\ Spec.hasAudio (TracksList.ui w) id
        /\ Spec.hasAudio (TracksList.ui (TracksList.step e w)) id).
Proof.
  split.
  { intros s t1 t2 _ _ H1 H2. unfold TracksList.isPlaying in *.
    apply strict_eq_Some in H1, H2. congruence. }
  split.
  { intros id s. apply (handle_pointer (TracksList.PlayTrack id) s). }
  intros e w id Hen Hset Hnew.
  destruct (step_observes e w) as (Etr & _ & Eplay).
  rewrite Eplay, handle_pointer in Hset.
  assert (He : e = TracksList.PlayTrack id).
  { destruct e; try contradiction.
    destruct (Js.strict_eq _ _); [discriminate|]. congruence. }
  subst e. cbn in Hen.
  pose proof (canPlay_hasAudio _ _ Hen) as Haudio.
  repeat split; try assumption.
  destruct Haudio as (track & Hmem & Hid & Hok).
  exists track. rewrite Etr. cbn [TracksList.handle].
  unfold TracksList.handlePlayTrack.
  destruct (Js.strict_eq _ _); cbn; repeat split; assumption.
Qed.

Lemma playback_pointer_steps_witness :
  TracksList.enabled (TracksList.PlayTrack "a")
                     (Sample.world Sample.firstPageLoaded) = true
  /\ Spec.hasAudio
       (TracksList.ui
          (TracksList.step (TracksList.PlayTrack "a")
                           (Sample.world Sample.firstPageLoaded)))
       "a".
Proof.
  split; [vm_compute; reflexivity|].
  refine (proj2 (proj2 (proj2 (proj2 playback_pointer_steps)
                         (TracksList.PlayTrack "a")
                         (Sample.world Sample.firstPageLoaded) "a"%string
                         _ _ _))).
  - vm_compute. reflexivity.
  - vm_compute. reflexivity.
  - vm_compute. discriminate.
Defined.

(** C7, as stated, fails: [a] is playing; a reload then lists [a] without
    an audio file; the pointer still names [a]. *)
Lemma playing_without_audio_counterexample :
  TracksList.reachable (Sample.world Sample.playingThenAudioGone)
  /\ TracksList.playingTrackId (Sample.after Sample.playingThenAudioGone)
     = Some "a"%string
  /\ TracksList.tracks (Sample.after Sample.playingThenAudioGone)
     = [Sample.a_without_audio; Sample.b]
  /\ ~ Spec.playingHasAudio (Sample.after Sample.playingThenAudioGone).
Proof.
  split.
  { apply world_reachable. vm_compute. discriminate. }
  split; [vm_compute; reflexivity|].
  split; [vm_compute; reflexivity|].
  assert (Eplay : TracksList.playingTrackId
                    (Sample.after Sample.playingThenAudioGone)
                  = Some "a"%string) by (vm_compute; reflexivity).
  assert (Etr : TracksList.tracks (Sample.after Sample.playingThenAudioGone)
                = [Sample.a_without_audio; Sample.b])
    by (vm_compute; reflexivity).
  unfold Spec.playingHasAudio, Spec.hasAudio. rewrite Eplay, Etr.
  intros (track & Hmem & _ & Hok).
  destruct Hmem as [<- | [<- | []]]; cbn in Hok; discriminate.
Qed.

(** * Further properties *)

(** ** Patterns *)

Section Patterns.
Import Ascii.
Local Open Scope string_scope.

Lemma text_app_empty (s : string) : s ++ EmptyString = s.
Proof. induction s as [|c s IH]; cbn; [reflexivity | now rewrite IH]. Qed.


Lemma text_app_is_empty (s1 s2 : string) :
  s1 ++ s2 = EmptyString -> s1 = EmptyString /\ s2 = EmptyString.
Proof. destruct s1; cbn; [tauto | discriminate]. Qed.

(** How a text that starts with [c] can be cut in two. *)
Lemma text_app_is_cons (s1 s2 s : string) (c : ascii) :
  s1 ++ s2 = String c s ->
  (s1 = EmptyString /\ s2 = String c s)
  \/ exists rest, s1 = String c rest /\ s = rest ++ s2.
Proof.
  destruct s1 as [|c1 s1]; cbn; intros H; [now left|].
  right. inversion H; subst. now exists s1.
Qed.

Variable ignoreCase : bool.

Lemma nullable_lang (r : Regex.t) :
  Regex.nullable r = true <-> Regex.lang ignoreCase r EmptyString.
Proof.
  split.
  - induction r; cbn; intros H; try discriminate.
    + constructor.
    + apply andb_true_iff in H as [H1 H2].
      change EmptyString with (EmptyString ++ EmptyString).
      constructor; auto.
    + apply orb_true_iff in H as [H|H];
        [apply Regex.lang_alt_l | apply Regex.lang_alt_r]; auto.
    + constructor.
  - intros H. remember EmptyString as s eqn:Es.
    induction H; subst; cbn; try discriminate; try reflexivity.
    + apply text_app_is_empty in Es as [-> ->].
      rewrite IHlang1, IHlang2; reflexivity.
    + rewrite IHlang; reflexivity.
    + rewrite IHlang; [apply orb_true_r | reflexivity].
Qed.

Lemma derive_sound (r : Regex.t) :
  forall c s,
    Regex.lang ignoreCase (Regex.derive ignoreCase c r) s ->
    Regex.lang ignoreCase r (String c s).
Proof.
  induction r as [| |p| |r1 IH1 r2 IH2|r1 IH1 r2 IH2|r IH];
    intros c s H; cbn in H.
  - inversion H.
  - inversion H.
  - destruct (Regex.sameChar ignoreCase p c) eqn:E; inversion H; subst.
    now constructor.
  - destruct (Regex.lineTerminator c) eqn:E; inversion H; subst.
    now constructor.
  - assert (Hseq : forall s,
               Regex.lang ignoreCase
                 (Regex.Seq (Regex.derive ignoreCase c r1) r2) s ->
               Regex.lang ignoreCase (Regex.Seq r1 r2) (String c s)).
    { intros s0 H0. inversion H0; subst.
      change (String c (s1 ++ s2)) with (String c s1 ++ s2).
      constructor; auto. }
    destruct (Regex.nullable r1) eqn:N; [|now apply Hseq].
    inversion H; subst; [now apply Hseq|].
    change (String c s) with (EmptyString ++ String c s).
    constructor; [now apply nullable_lang | auto].
  - inversion H; subst;
      [apply Regex.lang_alt_l | apply Regex.lang_alt_r]; auto.
  - inversion H; subst.
    change (String c (s1 ++ s2)) with (String c s1 ++ s2).
    apply Regex.lang_star_more; auto.
Qed.

Lemma derive_complete (r : Regex.t) (w : string) :
  Regex.lang ignoreCase r w ->
  forall c s, w = String c s ->
              Regex.lang ignoreCase (Regex.derive ignoreCase c r) s.
Proof.
  induction 1 as [|p c0 Hp|c0 Hc|r1 r2 s1 s2 H1 IH1 H2 IH2
                  |r1 r2 s0 H0 IH0|r1 r2 s0 H0 IH0| |r s1 s2 H1 IH1 H2 IH2];
    intros c s E; cbn.
  - discriminate.
  - inversion E; subst. rewrite Hp. constructor.
  - inversion E; subst. rewrite Hc. constructor.
  - apply text_app_is_cons in E as [[-> ->] | (rest & -> & ->)].
    + apply nullable_lang in H1. rewrite H1.
      apply Regex.lang_alt_r. now apply IH2.
    + assert (Hl : Regex.lang ignoreCase
                     (Regex.Seq (Regex.derive ignoreCase c r1) r2)
                     (rest ++ s2)).
      { constructor; [now apply IH1 | assumption]. }
      destruct (Regex.nullable r1); [now apply Regex.lang_alt_l | assumption].
  - apply Regex.lang_alt_l. now apply IH0.
  - apply Regex.lang_alt_r. now apply IH0.
  - discriminate.
  - apply text_app_is_cons in E as [[-> ->] | (rest & -> & ->)].
    + now apply IH2.
    + constructor; [now apply IH1 | assumption].
Qed.


(** The anchored search finds a match exactly when some starting piece of
    the text is in the language. *)
Lemma start_lang (s : string) :
  forall r, Regex.start ignoreCase r s = true <->
            exists s1 s2, s = s1 ++ s2 /\ Regex.lang ignoreCase r s1.
Proof.
  induction s as [|c s IH]; intros r; cbn.
  - rewrite orb_false_r, nullable_lang. split.
    + intros H. now exists EmptyString, EmptyString.
    + intros (s1 & s2 & E & H). symmetry in E.
      apply text_app_is_empty in E as [-> _]. exact H.
  - rewrite orb_true_iff, IH, nullable_lang. split.
    + intros [H | (s1 & s2 & -> & H)].
      * now exists EmptyString, (String c s).
      * exists (String c s1), s2. split; [reflexivity|].
        now apply derive_sound.
    + intros (s1 & s2 & E & H). symmetry in E.
      apply text_app_is_cons in E as [[-> _] | (rest & -> & ->)].
      * now left.
      * right. exists rest, s2. split; [reflexivity|].
        now apply (derive_complete r (String c rest)).
Qed.

Lemma word_lang (w : string) :
  forall s, Regex.lang ignoreCase (Regex.word w) s
            <-> Regex.sameWord ignoreCase w s = true.
Proof.
  induction w as [|p w IH]; intros s; cbn.
  - split.
    + intros H. inversion H; subst. reflexivity.
    + destruct s; [constructor | discriminate].
  - split.
    + intros H. inversion H as [| | |r1 r2 s1 s2 H1 H2| | | |]; subst.
      inversion H1; subst. cbn. apply andb_true_iff. split; [assumption|].
      now apply IH.
    + destruct s as [|c s]; [discriminate|]. intros H.
      apply andb_true_iff in H as [Hc Hw].
      change (String c s) with (String c EmptyString ++ s).
      constructor; [now constructor | now apply IH].
Qed.


Lemma sameWord_app (w1 : string) :
  forall w2 s1 s2,
    Regex.sameWord ignoreCase w1 s1 = true ->
    Regex.sameWord ignoreCase w2 s2 = true ->
    Regex.sameWord ignoreCase (w1 ++ w2) (s1 ++ s2) = true.
Proof.
  induction w1 as [|p w1 IH]; intros w2 s1 s2 H1 H2;
    destruct s1 as [|c s1]; cbn in *; try discriminate; [assumption|].
  apply andb_true_iff in H1 as [Hc Hw]. rewrite Hc. cbn. now apply IH.
Qed.

Lemma sameWord_split (w1 : string) :
  forall w2 s,
    Regex.sameWord ignoreCase (w1 ++ w2) s = true ->
    exists s1 s2, s = s1 ++ s2
                  /\ Regex.sameWord ignoreCase w1 s1 = true
                  /\ Regex.sameWord ignoreCase w2 s2 = true.
Proof.
  induction w1 as [|p w1 IH]; intros w2 s H; cbn in H.
  - now exists EmptyString, s.
  - destruct s as [|c s]; [discriminate|].
    apply andb_true_iff in H as [Hc Hw].
    destruct (IH _ _ Hw) as (s1 & s2 & -> & H1 & H2).
    exists (String c s1), s2. cbn. rewrite Hc. now repeat split.
Qed.

End Patterns.

Section PatternShapes.
Import Ascii.
Local Open Scope string_scope.

Lemma lang_seq_cut (i : bool) (r1 r2 : Regex.t) (s : string) :
  Regex.lang i (Regex.Seq r1 r2) s ->
  exists s1 s2, s = s1 ++ s2 /\ Regex.lang i r1 s1 /\ Regex.lang i r2 s2.
Proof.
  intros H. inversion H; subst. now exists s1, s2.
Qed.

Lemma lang_alt_cases (i : bool) (r1 r2 : Regex.t) (s : string) :
  Regex.lang i (Regex.Alt r1 r2) s -> Regex.lang i r1 s \/ Regex.lang i r2 s.
Proof.
  intros H. inversion H; subst; [now left | now right].
Qed.

Lemma lang_chr_one (i : bool) (p : ascii) (s : string) :
  Regex.lang i (Regex.Chr p) s ->
  exists c, s = String c EmptyString /\ Regex.sameChar i p c = true.
Proof.
  intros H. inversion H; subst. now exists c.
Qed.

Lemma lang_opt_cases (i : bool) (r : Regex.t) (s : string) :
  Regex.lang i (Regex.Opt r) s -> Regex.lang i r s \/ s = EmptyString.
Proof.
  intros H. apply lang_alt_cases in H as [H|H]; [now left|].
  right. now inversion H.
Qed.


(** Without the [i] flag a word meets only itself. *)
Lemma sameWord_exact (w : string) :
  forall s, Regex.sameWord false w s = true <-> w = s.
Proof.
  induction w as [|p w IH]; intros [|c s]; cbn; try (split; congruence).
  rewrite andb_true_iff, IH. unfold Regex.sameChar.
  rewrite Ascii.eqb_eq. split; [intros [-> ->]; reflexivity|].
  intros E. inversion E. now split.
Qed.

(** The scheme part of both patterns: [http], an optional [s],
    [://]. *)
Lemma scheme_lang (i : bool) (s : string) :
  Regex.lang i EditTrackModal.schemePattern s <->
  Regex.sameWord i "http://" s = true \/ Regex.sameWord i "https://" s = true.
Proof.
  unfold EditTrackModal.schemePattern. split.
  - intros H.
    apply lang_seq_cut in H as (h & rest & -> & Hh & H).
    apply lang_seq_cut in H as (o & t & -> & Ho & Ht).
    apply word_lang in Hh, Ht.
    apply lang_opt_cases in Ho as [Ho | ->].
    + right. apply lang_chr_one in Ho as (c & -> & Hc).
      change "https://" with ("http" ++ "s" ++ "://").
      apply sameWord_app; [assumption|].
      apply sameWord_app; [|assumption].
      cbn. now rewrite Hc.
    + left. change "http://" with ("http" ++ "://").
      apply sameWord_app; assumption.
  - intros [H|H].
    + change "http://" with ("http" ++ "://") in H.
      apply sameWord_split in H as (h & t & -> & Hh & Ht).
      constructor; [now apply word_lang|].
      change t with (EmptyString ++ t).
      constructor; [|now apply word_lang].
      apply Regex.lang_alt_r. constructor.
    + change "https://" with ("http" ++ "s" ++ "://") in H.
      apply sameWord_split in H as (h & rest & -> & Hh & H).
      apply sameWord_split in H as (o & t & -> & Ho & Ht).
      constructor; [now apply word_lang|].
      constructor; [|now apply word_lang].
      apply Regex.lang_alt_l.
      destruct o as [|c [|c' o]]; cbn in Ho; try discriminate.
      * apply andb_true_iff in Ho as [Hc _]. now constructor.
      * apply andb_true_iff in Ho as [_ Ho]. discriminate.
Qed.


End PatternShapes.

(** ** Cover image URLs *)

Section CoverUrls.
Import Ascii.


(** X2: the edit dialog accepts a cover URL exactly when it starts with
    [http://] or [https://], in lower case; what follows is free. *)
Theorem edit_cover_url_shape (url : string) :
  EditTrackModal.hasScheme url = true <->
  exists rest,
    url = ("http://" ++ rest)%string \/ url = ("https://" ++ rest)%string.
Proof.
  unfold EditTrackModal.hasScheme. rewrite start_lang. split.
  - intros (s1 & s2 & -> & H). apply scheme_lang in H.
    exists s2. destruct H as [H|H]; apply sameWord_exact in H; subst;
      [now left | now right].
  - intros (rest & [-> | ->]).
    + exists "http://"%string, rest. split; [reflexivity|].
      apply scheme_lang. left. now apply sameWord_exact.
    + exists "https://"%string, rest. split; [reflexivity|].
      apply scheme_lang. right. now apply sameWord_exact.
Qed.


Lemma edit_cover_url_shape_witness :
  EditTrackModal.hasScheme "http://cdn.example/cover" = true
  /\ CreateTrackModal.validateImageUrl "http://cdn.example/cover" = false
  /\ EditTrackModal.hasScheme "HTTPS://cdn.example/covers/Blue.JPG" = false.
Proof.
  split.
  - apply (proj2 (edit_cover_url_shape "http://cdn.example/cover")).
    exists "cdn.example/cover"%string. left. reflexivity.
  - split; vm_compute; reflexivity.
Defined.

End CoverUrls.

(** ** Selecting and playing one track *)

(** X3: toggling the selection of an id removes it when it is selected and
    appends it when it is not, touching no other id; a selection without
    repeated ids stays without repeated ids; the page is left alone. *)
Theorem select_track_toggles (id : string) (s : TracksList.State) :
  (forall x,
      In x (TracksList.selectedTrackIds (TracksList.handleSelectTrack id s))
      <-> (x <> id /\ In x (TracksList.selectedTrackIds s))
          \/ (x = id /\ ~ In id (TracksList.selectedTrackIds s)))
  /\ (NoDup (TracksList.selectedTrackIds s) ->
      NoDup (TracksList.selectedTrackIds (TracksList.handleSelectTrack id s)))
  /\ (~ In id (TracksList.selectedTrackIds s) ->
      TracksList.selectedTrackIds
        (TracksList.handleSelectTrack id (TracksList.handleSelectTrack id s))
      = TracksList.selectedTrackIds s)
  /\ TracksList.tracks (TracksList.handleSelectTrack id s)
     = TracksList.tracks s.
Proof.
  assert (Esel : forall st,
             TracksList.selectedTrackIds (TracksList.handleSelectTrack id st)
             = if Js.includes (TracksList.selectedTrackIds st) id
               then filter (fun trackId => negb (String.eqb trackId id))
                           (TracksList.selectedTrackIds st)
               else TracksList.selectedTrackIds st ++ [id])
    by reflexivity.
  rewrite !Esel.
  destruct (Js.includes (TracksList.selectedTrackIds s) id) eqn:E.
  - apply includes_In in E. repeat split.
    + intros Hx. apply In_filter_neq in Hx. left. tauto.
    + intros [[Hne Hx] | [-> Hn]]; [|contradiction].
      apply In_filter_neq. tauto.
    + intros Hnd. now apply NoDup_filter.
    + intros Hn. contradiction.
  - apply includes_not_In in E. repeat split.
    + intros Hx. apply in_app_iff in Hx as [Hx | [<- | []]].
      * left. split; [congruence | assumption].
      * right. now split.
    + intros [[Hne Hx] | [-> Hn]]; apply in_app_iff;
        [now left | right; now left].
    + intros Hnd. apply NoDup_app; [assumption | | ].
      * repeat constructor. intros [].
      * intros x Hx [<- | []]. contradiction.
    + intros _.
      assert (Hin : Js.includes (TracksList.selectedTrackIds s ++ [id]) id
                    = true).
      { apply includes_In, in_app_iff. right. now left. }
      rewrite Hin. rewrite filter_app. cbn. rewrite String.eqb_refl. cbn.
      rewrite app_nil_r. now apply filter_neq_absent.
Qed.

Lemma select_track_toggles_witness :
  TracksList.selectedTrackIds
    (TracksList.handleSelectTrack "b"
       (TracksList.handleSelectTrack "b"
          (Sample.after Sample.secondPageWithOldSelection)))
  = ["a"%string].
Proof.
  refine (proj1 (proj2 (proj2
            (select_track_toggles
               "b" (Sample.after Sample.secondPageWithOldSelection)))) _).
  vm_compute. intros [H | []]. discriminate.
Defined.

(** X4: the play toggle pressed twice on the same id ends with nothing
    playing unless that id was playing before, in which case it plays
    again; pressed on [a] and then on another id [b] it ends with [b]
    playing, whatever played before. *)
Theorem play_toggle_sequences (a b : string) (s : TracksList.State) :
  TracksList.playingTrackId
    (TracksList.handlePlayTrack a (TracksList.handlePlayTrack a s))
  = (if Js.strict_eq (Some a) (TracksList.playingTrackId s)
     then Some a else None)
  /\ (a <> b ->
      TracksList.playingTrackId
        (TracksList.handlePlayTrack b (TracksList.handlePlayTrack a s))
      = Some b).
Proof.
  assert (Htoggle : forall id st,
             TracksList.playingTrackId (TracksList.handlePlayTrack id st)
             = if Js.strict_eq (Some id) (TracksList.playingTrackId st)
               then None else Some id).
  { intros id st. apply (handle_pointer (TracksList.PlayTrack id) st). }
  rewrite !Htoggle. split.
  - destruct (Js.strict_eq (Some a) (TracksList.playingTrackId s)); cbn;
      [reflexivity|]. now rewrite String.eqb_refl.
  - intros Hne.
    destruct (Js.strict_eq (Some a) (TracksList.playingTrackId s)); cbn;
      [reflexivity|].
    destruct (String.eqb_spec b a); [congruence | reflexivity].
Qed.

Lemma play_toggle_sequences_witness :
  TracksList.playingTrackId
    (TracksList.handlePlayTrack "b"
       (TracksList.handlePlayTrack "a" (Sample.after Sample.firstPageLoaded)))
  = Some "b"%string.
Proof.
  apply (play_toggle_sequences "a" "b"). discriminate.
Defined.

(** ** Updating and creating *)

(** X5: an update replaces, in place, every track that has the id of the
    updated track and leaves the others alone: the ids on the page and
    their order stay, the selection and the total stay, the edit dialog is
    closed; an update for an id that is not on the page changes no
    track. *)
Theorem update_in_place
        (updatedTrack : Track.TrackCardProps) (s : TracksList.State) :
  TracksList.visibleIds (TracksList.handleUpdateTrack updatedTrack s)
  = TracksList.visibleIds s
  /\ (forall row track,
        nth_error (TracksList.tracks s) row = Some track ->
        nth_error
          (TracksList.tracks (TracksList.handleUpdateTrack updatedTrack s)) row
        = Some (if String.eqb (Track.id track) (Track.id updatedTrack)
                then updatedTrack else track))
  /\ (~ In (Track.id updatedTrack) (TracksList.visibleIds s) ->
      TracksList.tracks (TracksList.handleUpdateTrack updatedTrack s)
      = TracksList.tracks s)
  /\ TracksList.selectedTrackIds (TracksList.handleUpdateTrack updatedTrack s)
     = TracksList.selectedTrackIds s
  /\ TracksList.paginationMeta (TracksList.handleUpdateTrack updatedTrack s)
     = TracksList.paginationMeta s
  /\ ModalState.isOpen
       (TracksList.editModal (TracksList.handleUpdateTrack updatedTrack s))
     = false.
Proof.
  split.
  { unfold TracksList.visibleIds. cbn. apply update_keeps_ids. }
  split.
  { intros row track Hrow. cbn.
    rewrite nth_error_map, Hrow. reflexivity. }
  split; [|repeat split].
  intros Habsent. cbn. unfold TracksList.visibleIds in Habsent.
  induction (TracksList.tracks s) as [|track trs IH]; cbn; [reflexivity|].
  destruct (String.eqb_spec (Track.id track) (Track.id updatedTrack)) as [E|_].
  - exfalso. apply Habsent. now left.
  - f_equal. apply IH. intros Hin. apply Habsent. now right.
Qed.

Lemma update_in_place_witness :
  TracksList.tracks
    (TracksList.handleUpdateTrack Sample.a_without_audio
       (Sample.after Sample.firstPageLoaded))
  = [Sample.a_without_audio; Sample.b]
  /\ TracksList.tracks
       (TracksList.handleUpdateTrack Sample.c
          (Sample.after Sample.firstPageLoaded))
     = TracksList.tracks (Sample.after Sample.firstPageLoaded).
Proof.
  split; [vm_compute; reflexivity|].
  refine (proj1 (proj2 (proj2
            (update_in_place Sample.c (Sample.after Sample.firstPageLoaded))))
            _).
  vm_compute. intros [H | [H | []]]; discriminate.
Defined.



(** ** Loading the list *)

(** X7: when a list request settles the loading flag is cleared, and the
    selection, the parameters and the playback pointer are left alone. On
    success the page and the total are the answer's and the number of
    pages is the answer's unless that is 0, in which case it is 1, so it
    is never 0; the error message is not touched. On failure the page is
    emptied, the message is that of the error (or a fixed text), and the
    pagination figures of the last successful answer stay. *)
Theorem fetch_settles
        (get : Js.Settled (Api.AxiosResponse Api.TracksPage))
        (s : TracksList.State) :
  let s' := TracksList.fetchTracks_settle get s in
  TracksList.isLoading s' = false
  /\ TracksList.selectedTrackIds s' = TracksList.selectedTrackIds s
  /\ TracksList.params s' = TracksList.params s
  /\ TracksList.playingTrackId s' = TracksList.playingTrackId s
  /\ match get with
     | Js.Resolved response =>
         TracksList.tracks s' = Api.page_data (Api.data response)
         /\ TracksList.total (TracksList.paginationMeta s')
            = Api.total (Api.page_meta (Api.data response))
         /\ TracksList.totalPages (TracksList.paginationMeta s') <> 0
         /\ (Api.totalPages (Api.page_meta (Api.data response)) <> 0 ->
             TracksList.totalPages (TracksList.paginationMeta s')
             = Api.totalPages (Api.page_meta (Api.data response)))
         /\ TracksList.error s' = TracksList.error s
     | Js.Rejected e =>
         TracksList.tracks s' = []
         /\ TracksList.paginationMeta s' = TracksList.paginationMeta s
         /\ TracksList.error s'
            = Some match e with
                   | Js.ErrorObj message => message
                   | Js.OtherValue => "Failed to fetch tracks"%string
                   end
     end.
Proof.
  unfold TracksList.fetchTracks_settle, Api.getTracks, Js.try_catch.
  destruct get as [response|e]; cbn; repeat split.
  - destruct (Z.eqb_spec
                (Api.totalPages (Api.page_meta (Api.data response))) 0);
      [discriminate | assumption].
  - intros Hne.
    destruct (Z.eqb_spec
                (Api.totalPages (Api.page_meta (Api.data response))) 0);
      [contradiction | reflexivity].
Qed.

Lemma fetch_settles_witness :
  TracksList.totalPages
    (TracksList.paginationMeta
       (TracksList.fetchTracks_settle
          (Sample.listed [Sample.a; Sample.b] 3 2)
          TracksList.initialState))
  = 2.
Proof.
  refine (proj1 (proj2 (proj2 (proj2 (proj2 (proj2 (proj2 (proj2
            (fetch_settles (Sample.listed [Sample.a; Sample.b] 3 2)
                           TracksList.initialState)))))))) _).
  vm_compute. discriminate.
Defined.

Section Reload.
Import Js TracksList.

(** Every step that starts a list request ends with the loading flag up,
    no error message, and a request in flight. *)
Lemma started_request (e : Event) (w : World) :
  (e = FileUploaded \/ fetchEffectFires (ui w) (handle e (ui w)) = true) ->
  error (ui (step e w)) = None
  /\ isLoading (ui (step e w)) = true
  /\ (0 < tracksInFlight (step e w))%nat.
Proof.
  intros Hstart. unfold step.
  assert (Hs : match e with
               | FileUploaded => true
               | _ => fetchEffectFires (ui w) (handle e (ui w))
               end = true).
  { destruct Hstart as [-> | H]; [reflexivity|]. destruct e; auto. }
  rewrite Hs. cbn. repeat split. lia.
Qed.

End Reload.

(** X8: a step after which the list effect fires (the parameters were set,
    or the reload counter moved) ends with the loading flag up, a list
    request in flight and the error message cleared. This holds for the
    confirmed single delete whose remote call fails: the message it sets is
    gone once the reload it forces has started, and the track it removed
    stays removed until that reload settles. *)
Theorem forced_reload_clears_error :
  (forall (e : TracksList.Event) (w : TracksList.World),
      TracksList.fetchEffectFires
        (TracksList.ui w) (TracksList.handle e (TracksList.ui w)) = true ->
      TracksList.error (TracksList.ui (TracksList.step e w)) = None
      /\ TracksList.isLoading (TracksList.ui (TracksList.step e w)) = true
      /\ (0 < TracksList.tracksInFlight (TracksList.step e w))%nat)
  /\ (forall (w : TracksList.World) (id : string) (sel : list string)
             (thrown : Js.Thrown),
        TracksList.confirmAction (TracksList.ui w)
        = TracksList.DeleteTrackAction id sel ->
        TracksList.error
          (TracksList.handle (TracksList.ConfirmDelete (Js.Rejected thrown))
                             (TracksList.ui w))
        = Some "Failed to delete track. Please try again."%string
        /\ TracksList.error
             (TracksList.ui
                (TracksList.step
                   (TracksList.ConfirmDelete (Js.Rejected thrown)) w))
           = None
        /\ TracksList.isLoading
             (TracksList.ui
                (TracksList.step
                   (TracksList.ConfirmDelete (Js.Rejected thrown)) w))
           = true
        /\ ~ In id
             (TracksList.visibleIds
                (TracksList.ui
                   (TracksList.step
                      (TracksList.ConfirmDelete (Js.Rejected thrown)) w)))).
Proof.
  split.
  { intros e w Hf. apply started_request. now right. }
  intros w id sel thrown Hact.
  assert (Hfire : TracksList.fetchEffectFires
                    (TracksList.ui w)
                    (TracksList.handle
                       (TracksList.ConfirmDelete (Js.Rejected thrown))
                       (TracksList.ui w)) = true).
  { cbn [TracksList.handle]. unfold TracksList.runConfirmAction.
    rewrite Hact. unfold TracksList.fetchEffectFires.
    unfold TracksList.deleteTrackAction, TracksList.seq, TracksList.skip,
      Api.deleteTrack.
    destruct (Js.includes sel id); cbn;
      apply orb_true_iff; right; apply negb_true_iff, Z.eqb_neq; lia. }
  destruct (started_request _ w (or_intror Hfire)) as (He & Hl & _).
  split.
  { cbn [TracksList.handle]. unfold TracksList.runConfirmAction.
    rewrite Hact.
    unfold TracksList.deleteTrackAction, TracksList.seq, TracksList.skip,
      Api.deleteTrack.
    destruct (Js.includes sel id); reflexivity. }
  split; [exact He|]. split; [exact Hl|].
  destruct (step_observes
              (TracksList.ConfirmDelete (Js.Rejected thrown)) w)
    as (Etr & _).
  unfold TracksList.visibleIds. rewrite Etr.
  cbn [TracksList.handle]. unfold TracksList.runConfirmAction. rewrite Hact.
  destruct (deleteTrackAction_effect id sel (Js.Rejected thrown)
                                     (TracksList.ui w)) as (Efilter & _).
  cbv zeta in Efilter. rewrite Efilter.
  rewrite in_map_iff. intros (track & Hid & Hmem).
  apply filter_In in Hmem as [_ Hneq].
  unfold Spec.otherThan in Hneq. rewrite Hid, String.eqb_refl in Hneq.
  discriminate.
Qed.

Lemma forced_reload_clears_error_witness :
  TracksList.error
    (TracksList.ui
       (TracksList.step (TracksList.ConfirmDelete Sample.networkError)
                        (Sample.world Sample.rowDeleteRequested)))
  = None.
Proof.
  refine (proj1 (proj2 (proj2 forced_reload_clears_error
                          (Sample.world Sample.rowDeleteRequested)
                          "a"%string [] (Js.ErrorObj "Network Error") _))).
  vm_compute. reflexivity.
Defined.

(** ** What every step keeps *)

Section Frames.
Import Js TracksList.

Ltac open_handlers :=
  unfold handleSearchParams, handlePageChange, handleSelectTrack,
    handleSelectAll, handlePlayTrack, handleDeleteTrack, handleBulkDelete,
    runConfirmAction, deleteTrackAction, bulkDeleteAction, handleEditTrack,
    handleUpdateTrack, handleTrackCreate, retry, fetchTracks_settle,
    fetchGenres_settle, seq, skip, Api.getTracks, Api.getGenres,
    Api.deleteTrack, Api.deleteTracks, try_catch;
  cbv zeta.

Ltac split_cases :=
  repeat match goal with
         | |- context [match ?x with _ => _ end] => destruct x eqn:?
         end.

(** The state after a step is the handler's, possibly with a list request
    started on top. *)
Lemma step_ui (e : Event) (w : World) :
  ui (step e w) = handle e (ui w)
  \/ ui (step e w) = fetchTracks_begin (handle e (ui w)).
Proof.
  unfold step. cbn [ui].
  match goal with
  | |- context [if ?b then _ else _] => destruct b
  end; [now right | now left].
Qed.

Lemma handle_loading (e : Event) (s : State) :
  isLoading (handle e s)
  = match e with TracksSettled _ => false | _ => isLoading s end.
Proof.
  destruct e; cbn [handle]; open_handlers; split_cases; reflexivity.
Qed.

Lemma handle_total (e : Event) (s : State) :
  (forall response,
      e = TracksSettled (Resolved response) ->
      0 <= Api.total (Api.page_meta (Api.data response))) ->
  0 <= total (paginationMeta s) ->
  0 <= total (paginationMeta (handle e s)).
Proof.
  intros Hanswer Hs.
  destruct e; cbn [handle];
    try match goal with
        | get : Settled _ |- _ => destruct get as [response|thrown]
        end;
    open_handlers; split_cases; cbn; try assumption; try lia;
    now apply Hanswer.
Qed.

Lemma handle_dialog (e : Event) (s : State) :
  (confirmAction s = NoAction -> isConfirmDialogOpen s = false) ->
  confirmAction (handle e s) = NoAction ->
  isConfirmDialogOpen (handle e s) = false.
Proof.
  intros Hs.
  destruct e; cbn [handle]; open_handlers; split_cases; cbn;
    try assumption; try discriminate; try reflexivity; try congruence;
    intros _; now apply Hs.
Qed.

Lemma handle_edit (e : Event) (s : State) :
  (ModalState.isOpen (editModal s) = true -> currentTrack s <> None) ->
  ModalState.isOpen (editModal (handle e s)) = true ->
  currentTrack (handle e s) <> None.
Proof.
  intros Hs.
  destruct e; cbn [handle]; open_handlers; split_cases; cbn;
    try assumption; try discriminate.
Qed.

Lemma handle_page (e : Event) (w : World) :
  enabled e w = true ->
  Spec.closureCurrent (ui w) ->
  1 <= Params.page (params (ui w)) ->
  1 <= Params.page (params (handle e (ui w))).
Proof.
  intros Hen Hcur Hpage.
  unfold Spec.closureCurrent in Hcur.
  destruct e; cbn [handle]; cbn in Hen; open_handlers; split_cases; cbn;
    try assumption; try lia.
  destruct Hcur as (_ & _ & ->).
  match goal with
  | H : (_ && _)%bool = true |- _ =>
      apply andb_true_iff in H as [_ H]; apply Z.gtb_lt in H; lia
  end.
Qed.

Lemma handleSelectTrack_nodup (id : string) (sel : list string) :
  NoDup sel ->
  NoDup (if includes sel id
         then filter (fun trackId => negb (String.eqb trackId id)) sel
         else sel ++ [id]).
Proof.
  intros Hnd. destruct (includes sel id) eqn:E.
  - now apply NoDup_filter.
  - apply includes_not_In in E. apply NoDup_app; [assumption | | ].
    + repeat constructor. intros [].
    + intros x Hx [<- | []]. contradiction.
Qed.

Lemma handle_nodup (e : Event) (s : State) :
  NoDup (visibleIds s) ->
  NoDup (selectedTrackIds s) ->
  NoDup (selectedTrackIds (handle e s)).
Proof.
  intros Hids Hsel.
  destruct e; cbn [handle];
    try (open_handlers; split_cases; cbn;
         first [assumption | constructor | now apply NoDup_filter]).
  apply handleSelectTrack_nodup. assumption.
Qed.

End Frames.

(** X9: the total shown in the footer never becomes negative by a step of
    the controller: as long as a successful list answer carries a total
    that is not negative, a state whose total is not negative is followed
    by one whose total is not negative. *)
Theorem total_never_negative (e : TracksList.Event) (w : TracksList.World) :
  (forall response,
      e = TracksList.TracksSettled (Js.Resolved response) ->
      0 <= Api.total (Api.page_meta (Api.data response))) ->
  0 <= TracksList.total (TracksList.paginationMeta (TracksList.ui w)) ->
  0 <= TracksList.total
         (TracksList.paginationMeta (TracksList.ui (TracksList.step e w))).
Proof.
  intros Hanswer Hs.
  pose proof (handle_total e (TracksList.ui w) Hanswer Hs) as H.
  destruct (step_ui e w) as [-> | ->]; exact H.
Qed.

Lemma total_never_negative_witness :
  0 <= TracksList.total
         (TracksList.paginationMeta
            (TracksList.ui
               (TracksList.step (TracksList.ConfirmDelete Sample.deleted)
                  (Sample.world Sample.bulkDeleteRequested)))).
Proof.
  apply total_never_negative.
  - intros response H. discriminate.
  - vm_compute. discriminate.
Defined.

(** X10: on pages whose ids are distinct, a selection without repeated ids
    is followed, after any step, by a selection without repeated ids. *)
Theorem selection_stays_duplicate_free
        (e : TracksList.Event) (w : TracksList.World) :
  NoDup (TracksList.visibleIds (TracksList.ui w)) ->
  NoDup (TracksList.selectedTrackIds (TracksList.ui w)) ->
  NoDup (TracksList.selectedTrackIds (TracksList.ui (TracksList.step e w))).
Proof.
  intros Hids Hsel.
  destruct (step_observes e w) as (_ & -> & _).
  now apply handle_nodup.
Qed.

Lemma selection_stays_duplicate_free_witness :
  NoDup (TracksList.selectedTrackIds
           (TracksList.ui
              (TracksList.step TracksList.SelectAll
                               (Sample.world Sample.firstPageLoaded)))).
Proof.
  apply selection_stays_duplicate_free.
  - vm_compute. repeat constructor; cbn; intuition discriminate.
  - vm_compute. constructor.
Defined.

(** X11: a page number of at least 1 is followed, after any enabled step,
    by a page number of at least 1, provided the stored confirm action
    captured the current parameters: the previous-page button is disabled
    on page 1, a parameter change goes to page 1, and the bulk delete
    steps back only from a page above 1. *)
Theorem page_stays_positive (e : TracksList.Event) (w : TracksList.World) :
  TracksList.enabled e w = true ->
  Spec.closureCurrent (TracksList.ui w) ->
  1 <= Params.page (TracksList.params (TracksList.ui w)) ->
  1 <= Params.page (TracksList.params (TracksList.ui (TracksList.step e w))).
Proof.
  intros Hen Hcur Hpage.
  pose proof (handle_page e w Hen Hcur Hpage) as H.
  destruct (step_ui e w) as [-> | ->]; exact H.
Qed.

Lemma page_stays_positive_witness :
  1 <= Params.page
         (TracksList.params
            (TracksList.ui
               (TracksList.step TracksList.PreviousPage
                                (Sample.world Sample.secondPageLoaded)))).
Proof.
  apply page_stays_positive.
  - vm_compute. reflexivity.
  - vm_compute. exact I.
  - vm_compute. discriminate.
Defined.

(** ** What holds in every reachable state *)

(** X12: in every reachable state in which the confirm dialog is open a
    delete action is stored, so its Delete button never runs the empty
    initial action. *)
Theorem open_dialog_has_action (w : TracksList.World) :
  TracksList.reachable w ->
  TracksList.isConfirmDialogOpen (TracksList.ui w) = true ->
  TracksList.confirmAction (TracksList.ui w) <> TracksList.NoAction.
Proof.
  intros Hreach.
  assert (Hinv : TracksList.confirmAction (TracksList.ui w)
                 = TracksList.NoAction ->
                 TracksList.isConfirmDialogOpen (TracksList.ui w) = false).
  { induction Hreach as [|e w Hw IH Hen]; [reflexivity|].
    pose proof (handle_dialog e (TracksList.ui w) IH) as H.
    destruct (step_ui e w) as [-> | ->]; exact H. }
  intros Hopen Hnone. rewrite (Hinv Hnone) in Hopen. discriminate.
Qed.

Lemma open_dialog_has_action_witness :
  TracksList.confirmAction (Sample.after Sample.bulkDeleteRequested)
  <> TracksList.NoAction.
Proof.
  apply (open_dialog_has_action (Sample.world Sample.bulkDeleteRequested)).
  - apply world_reachable. vm_compute. discriminate.
  - vm_compute. reflexivity.
Defined.

(** X13: in every reachable state in which the edit dialog is open a
    current track is set, so the dialog is rendered whenever it is
    open. *)
Theorem open_edit_has_track (w : TracksList.World) :
  TracksList.reachable w ->
  ModalState.isOpen (TracksList.editModal (TracksList.ui w)) = true ->
  TracksList.currentTrack (TracksList.ui w) <> None.
Proof.
  intros Hreach.
  induction Hreach as [|e w Hw IH Hen]; [discriminate|].
  pose proof (handle_edit e (TracksList.ui w) IH) as H.
  destruct (step_ui e w) as [-> | ->]; exact H.
Qed.

Lemma open_edit_has_track_witness :
  TracksList.currentTrack
    (Sample.after (Sample.firstPageLoaded ++ [TracksList.EditTrack 1]))
  <> None.
Proof.
  apply (open_edit_has_track
           (Sample.world (Sample.firstPageLoaded ++ [TracksList.EditTrack 1]))).
  - apply world_reachable. vm_compute. discriminate.
  - vm_compute. reflexivity.
Defined.

(** X14: in every reachable state in which the loading flag is up a list
    request is in flight; the flag never stays up with nothing to wait
    for. *)
Theorem loading_has_request (w : TracksList.World) :
  TracksList.reachable w ->
  TracksList.isLoading (TracksList.ui w) = true ->
  (0 < TracksList.tracksInFlight w)%nat.
Proof.
  intros Hreach.
  induction Hreach as [|e w Hw IH Hen]; [cbn; lia|].
  unfold TracksList.step. cbn [TracksList.ui TracksList.tracksInFlight].
  match goal with
  | |- context [if ?b then _ else _] => destruct b
  end; [intros _; lia|].
  rewrite handle_loading.
  destruct e; try discriminate; intros H; specialize (IH H); lia.
Qed.

Lemma loading_has_request_witness :
  (0 < TracksList.tracksInFlight
         (Sample.world (Sample.firstPageLoaded ++ [TracksList.NextPage])))%nat.
Proof.
  apply loading_has_request.
  - apply world_reachable. vm_compute. discriminate.
  - vm_compute. reflexivity.
Defined.

(** X15: the flag is cleared by whichever list request settles first: with
    two or more requests in flight, the step in which one settles ends
    with the loading flag down while a request is still in flight, and
    the page shown is that of the request that settled. *)
Theorem loading_cleared_by_first_answer
        (get : Js.Settled (Api.AxiosResponse Api.TracksPage))
        (w : TracksList.World) :
  (2 <= TracksList.tracksInFlight w)%nat ->
  TracksList.isLoading
    (TracksList.ui (TracksList.step (TracksList.TracksSettled get) w))
  = false
  /\ (1 <= TracksList.tracksInFlight
             (TracksList.step (TracksList.TracksSettled get) w))%nat
  /\ TracksList.tracks
       (TracksList.ui (TracksList.step (TracksList.TracksSettled get) w))
     = match get with
       | Js.Resolved response => Api.page_data (Api.data response)
       | Js.Rejected _ => []
       end.
Proof.
  intros Htwo. unfold TracksList.step.
  cbn [TracksList.ui TracksList.tracksInFlight TracksList.handle].
  assert (Hquiet : TracksList.fetchEffectFires
                     (TracksList.ui w)
                     (TracksList.fetchTracks_settle get (TracksList.ui w))
                   = false).
  { unfold TracksList.fetchEffectFires, TracksList.fetchTracks_settle,
      Api.getTracks, Js.try_catch.
    destruct get; cbn; rewrite Nat.eqb_refl, Z.eqb_refl; reflexivity. }
  rewrite Hquiet.
  unfold TracksList.fetchTracks_settle, Api.getTracks, Js.try_catch.
  destruct get; cbn; repeat split; lia.
Qed.

Lemma loading_cleared_by_first_answer_witness :
  TracksList.isLoading
    (TracksList.ui
       (TracksList.step
          (TracksList.TracksSettled (Sample.listed [Sample.a; Sample.b] 3 2))
          (TracksList.step (TracksList.SearchParams Sample.sortByArtist)
                           TracksList.mounted)))
  = false.
Proof.
  refine (proj1 (loading_cleared_by_first_answer _ _ _)).
  vm_compute. lia.
Defined.

(** ** The confirm dialog *)

(** X16: asking for a delete, single or bulk, only opens the dialog and
    stores the action: the list, the total, the selection, the parameters,
    the reload counter and the message stay as they are, and they still
    are after Cancel, which closes the dialog; a bulk delete asked for
    with nothing selected changes nothing at all; and the confirmed action
    always closes the dialog, whatever the remote call answers. *)
Theorem delete_waits_for_confirmation
        (id : string) (reply : TracksList.DeleteReply) (s : TracksList.State) :
  Spec.sameList s (TracksList.handleDeleteTrack id s)
  /\ Spec.sameList s (TracksList.handleBulkDelete s)
  /\ Spec.sameList s
       (TracksList.setIsConfirmDialogOpen false
          (TracksList.handleDeleteTrack id s))
  /\ Spec.sameList s
       (TracksList.setIsConfirmDialogOpen false (TracksList.handleBulkDelete s))
  /\ (TracksList.selectedTrackIds s = [] -> TracksList.handleBulkDelete s = s)
  /\ (TracksList.selectedTrackIds s <> [] ->
      TracksList.isConfirmDialogOpen (TracksList.handleBulkDelete s) = true)
  /\ TracksList.isConfirmDialogOpen (TracksList.handleDeleteTrack id s) = true
  /\ TracksList.isConfirmDialogOpen
       (TracksList.runConfirmAction reply (TracksList.handleDeleteTrack id s))
     = false
  /\ (TracksList.selectedTrackIds s <> [] ->
      TracksList.isConfirmDialogOpen
        (TracksList.runConfirmAction reply (TracksList.handleBulkDelete s))
      = false).
Proof.
  assert (Hclose1 : TracksList.isConfirmDialogOpen
                      (TracksList.runConfirmAction reply
                         (TracksList.handleDeleteTrack id s)) = false).
  { destruct (deleteTrackAction_effect
                id (TracksList.selectedTrackIds s) reply
                (TracksList.handleDeleteTrack id s))
      as (_ & _ & _ & _ & _ & _ & _ & Hclosed).
    exact Hclosed. }
  assert (Hclose2 : TracksList.selectedTrackIds s <> [] ->
                    TracksList.isConfirmDialogOpen
                      (TracksList.runConfirmAction reply
                         (TracksList.handleBulkDelete s)) = false).
  { intros Hne. rewrite (bulk_delete_runs s reply Hne).
    destruct (bulkDeleteAction_effect
                (TracksList.tracks s) (TracksList.selectedTrackIds s)
                (TracksList.params s) reply
                (TracksList.setConfirmAction
                   (TracksList.BulkDeleteAction
                      (TracksList.tracks s) (TracksList.selectedTrackIds s)
                      (TracksList.params s))
                   (TracksList.setIsConfirmDialogOpen true s)))
      as (_ & _ & _ & _ & _ & Hclosed & _).
    exact Hclosed. }
  split; [repeat split|].
  unfold TracksList.handleBulkDelete.
  destruct (TracksList.selectedTrackIds s) as [|x sel] eqn:E; cbn.
  - repeat split; try reflexivity; try congruence; exact Hclose1.
  - repeat split; try reflexivity; try congruence; try exact Hclose1.
Qed.

Lemma delete_waits_for_confirmation_witness :
  TracksList.handleBulkDelete TracksList.initialState
  = TracksList.initialState
  /\ TracksList.isConfirmDialogOpen
       (TracksList.runConfirmAction Sample.networkError
          (TracksList.handleBulkDelete
             (Sample.after
                (Sample.firstPageLoaded ++ [TracksList.SelectTrack "a"]))))
     = false.
Proof.
  split.
  - apply (delete_waits_for_confirmation "a" Sample.deleted
                                         TracksList.initialState).
    reflexivity.
  - apply (delete_waits_for_confirmation "a" Sample.networkError).
    vm_compute. discriminate.
Defined.

(** ** The header *)

(** X17: whatever the user changes in the header (the search term on
    submit, the sort key, the order, the genre or the artist), the
    parameters afterwards hold the new value under that key, page 1, and
    every other key, the page size included, as before. *)
Theorem header_change_keeps_other_keys
        (h : Header.State) (i : Header.Input) (s : TracksList.State) :
  let before := TracksList.params s in
  let after :=
    TracksList.params
      (TracksList.handleSearchParams (Header.change h i) s) in
  Params.page after = 1
  /\ Params.limit after = Params.limit before
  /\ Params.totalPages after = Params.totalPages before
  /\ Params.search after
     = match i with
       | Header.SubmitSearch => Header.searchTerm h
       | _ => Params.search before
       end
  /\ Params.sort after
     = match i with
       | Header.ChooseSort value => value
       | _ => Params.sort before
       end
  /\ Params.order after
     = match i with
       | Header.ChooseOrder value => value
       | _ => Params.order before
       end
  /\ Params.genre after
     = match i with
       | Header.ChooseGenre value => value
       | _ => Params.genre before
       end
  /\ Params.artist after
     = match i with
       | Header.TypeArtist value => value
       | _ => Params.artist before
       end.
Proof.
  destruct i; cbn; repeat split; reflexivity.
Qed.

Section Box.
Import Js TracksList.

Lemma all_of_own_ids (trs : list Track.TrackCardProps) :
  forallb (fun track => includes (map Track.id trs) (Track.id track)) trs
  = true.
Proof.
  apply forallb_forall. intros x Hx. apply includes_In. now apply in_map.
Qed.

Lemma page_has_rows (track : Track.TrackCardProps)
      (trs : list Track.TrackCardProps) :
  (0 <? Z.of_nat (List.length (track :: trs))) = true.
Proof. apply Z.ltb_lt. cbn [List.length]. lia. Qed.

End Box.

(** X18: on a page that is not empty the select-all box changes its tick
    with every press: it is ticked afterwards exactly when it was not
    before; on an empty page it is never ticked. *)
Theorem select_all_box_flips (s : TracksList.State) :
  (TracksList.tracks s <> [] ->
   Header.allSelected (TracksList.handleSelectAll s)
   = negb (Header.allSelected s))
  /\ (TracksList.tracks s = [] ->
      Header.allSelected s = false
      /\ Header.allSelected (TracksList.handleSelectAll s) = false).
Proof.
  unfold Header.allSelected, TracksList.handleSelectAll.
  match goal with
  | |- context [forallb ?f (TracksList.tracks s)] =>
      destruct (forallb f (TracksList.tracks s)) eqn:Eall
  end;
    cbn [TracksList.tracks TracksList.selectedTrackIds
         TracksList.setSelectedTrackIds].
  - destruct (TracksList.tracks s) as [|track trs]; split;
      try congruence; try discriminate.
    + intros _. split; reflexivity.
    + intros _. rewrite page_has_rows. reflexivity.
  - rewrite all_of_own_ids.
    destruct (TracksList.tracks s) as [|track trs]; split;
      try congruence; try discriminate.
    intros _. rewrite page_has_rows. reflexivity.
Qed.

Lemma select_all_box_flips_witness :
  Header.allSelected
    (TracksList.handleSelectAll (Sample.after Sample.firstPageLoaded))
  = negb (Header.allSelected (Sample.after Sample.firstPageLoaded)).
Proof.
  apply select_all_box_flips. vm_compute. discriminate.
Defined.

(** ** Genres of a draft *)

Section Genres.
Import Js.

Lemma distinct_snoc (g : string) (gs : list string) :
  NoDup gs -> ~ In g gs -> NoDup (gs ++ [g]).
Proof.
  intros Hnd Hn. apply NoDup_app; [assumption | | ].
  - repeat constructor. intros [].
  - intros x Hx [<- | []]. contradiction.
Qed.

Lemma drop_snoc (g : string) (gs : list string) :
  ~ In g gs ->
  filter (fun x => negb (String.eqb x g)) (gs ++ [g]) = gs.
Proof.
  intros Hn. rewrite filter_app. cbn. rewrite String.eqb_refl. cbn.
  rewrite app_nil_r. now apply filter_neq_absent.
Qed.


Lemma edit_genres_added (g : string) (s : EditTrackModal.State) :
  Draft.genres (EditTrackModal.form (EditTrackModal.handleGenreChange g s))
  = if negb (includes (Draft.genres (EditTrackModal.form s)) g)
    then Draft.genres (EditTrackModal.form s) ++ [g]
    else Draft.genres (EditTrackModal.form s).
Proof.
  unfold EditTrackModal.handleGenreChange.
  destruct (negb _); reflexivity.
Qed.

End Genres.



(** X20: in the edit dialog the genres of the draft never hold a genre
    twice either, choosing twice is choosing once and removing a genre just
    added gives the list back; but the choice is not checked for being
    empty: choosing the empty genre puts it in the list. *)
Theorem edit_genres_distinct (g : string) (s : EditTrackModal.State) :
  let genres := fun st => Draft.genres (EditTrackModal.form st) in
  (NoDup (genres s) ->
   NoDup (genres (EditTrackModal.handleGenreChange g s))
   /\ NoDup (genres (EditTrackModal.removeGenre g s)))
  /\ EditTrackModal.handleGenreChange g (EditTrackModal.handleGenreChange g s)
     = EditTrackModal.handleGenreChange g s
  /\ In g (genres (EditTrackModal.handleGenreChange g s))
  /\ In EmptyString (genres (EditTrackModal.handleGenreChange EmptyString s))
  /\ ~ In g (genres (EditTrackModal.removeGenre g s))
  /\ (~ In g (genres s) ->
      genres (EditTrackModal.removeGenre g
                (EditTrackModal.handleGenreChange g s))
      = genres s).
Proof.
  intros genres. subst genres. cbv beta.
  assert (Hadded : forall x st,
             In x (Draft.genres
                     (EditTrackModal.form
                        (EditTrackModal.handleGenreChange x st)))).
  { intros x st. rewrite edit_genres_added.
    destruct (Js.includes _ x) eqn:E; cbn [negb].
    - now apply includes_In.
    - apply in_app_iff. right. now left. }
  rewrite !edit_genres_added.
  split.
  { intros Hnd. split; [|now apply NoDup_filter].
    destruct (Js.includes _ g) eqn:E; cbn [negb]; [assumption|].
    apply distinct_snoc; [assumption | now apply includes_not_In]. }
  split.
  { unfold EditTrackModal.handleGenreChange at 1.
    pose proof (Hadded g s) as Hin. apply includes_In in Hin.
    rewrite Hin. reflexivity. }
  split; [rewrite <- edit_genres_added; apply Hadded|].
  split; [rewrite <- edit_genres_added; apply Hadded|].
  split.
  { cbn. rewrite In_filter_neq. tauto. }
  intros Hn.
  assert (Hrm : forall st,
             Draft.genres
               (EditTrackModal.form (EditTrackModal.removeGenre g st))
             = filter (fun x => negb (String.eqb x g))
                      (Draft.genres (EditTrackModal.form st)))
    by reflexivity.
  rewrite Hrm, edit_genres_added.
  apply includes_not_In in Hn. rewrite Hn. cbn [negb].
  apply drop_snoc. now apply includes_not_In.
Qed.

Lemma edit_genres_distinct_witness :
  NoDup
    (Draft.genres
       (EditTrackModal.form
          (EditTrackModal.handleGenreChange "Rock"
             (EditTrackModal.openWith Sample.a EditTrackModal.initialState)))).
Proof.
  refine (proj1 (proj1 (edit_genres_distinct "Rock"
                          (EditTrackModal.openWith
                             Sample.a EditTrackModal.initialState)) _)).
  vm_compute. constructor.
Defined.

(** ** Submitting the dialogs *)

Section Submit.
Import Js.

Lemma create_submit_refused
      (createReply : Settled (Api.AxiosResponse Track.TrackProps))
      (uploadReply : Settled (Api.AxiosResponse Api.Uploaded))
      (s : CreateTrackModal.State) :
  Spec.createReady s = false ->
  exists message,
    CreateTrackModal.handleSubmit createReply uploadReply s
    = (CreateTrackModal.setError (Some message) s, [])
    /\ message <> EmptyString.
Proof.
  unfold Spec.createReady, CreateTrackModal.handleSubmit. intros Hno.
  destruct (nonEmpty (Draft.title (CreateTrackModal.form s)));
    destruct (nonEmpty (Draft.artist (CreateTrackModal.form s)));
    cbn [andb negb orb] in *;
    try (eexists; split; [reflexivity | discriminate]).
  destruct (nonEmpty (Draft.coverImage (CreateTrackModal.form s)));
    cbn [andb negb orb] in *; [|discriminate].
  rewrite Hno. cbn [negb].
  eexists; split; [reflexivity | discriminate].
Qed.

Lemma create_submit_accepted
      (createReply : Settled (Api.AxiosResponse Track.TrackProps))
      (uploadReply : Settled (Api.AxiosResponse Api.Uploaded))
      (s : CreateTrackModal.State) :
  Spec.createReady s = true ->
  CreateTrackModal.handleSubmit createReply uploadReply s
  = match createReply with
    | Resolved response =>
        match Draft.audioFile (CreateTrackModal.form s) with
        | Some file =>
            match uploadReply with
            | Resolved _ =>
                (s, [Spec.createCall s;
                     Draft.CallUploadTrackFile
                       (Track.id (Track.card (Api.data response))) file;
                     Draft.OnFileUpload None;
                     Draft.OnCreate (Api.data response)])
            | Rejected e =>
                (CreateTrackModal.setError
                   (Some (CreateTrackModal.caught e)) s,
                 [Spec.createCall s;
                  Draft.CallUploadTrackFile
                    (Track.id (Track.card (Api.data response))) file])
            end
        | None => (s, [Spec.createCall s; Draft.OnCreate (Api.data response)])
        end
    | Rejected e =>
        (CreateTrackModal.setError (Some (CreateTrackModal.caught e)) s,
         [Spec.createCall s])
    end.
Proof.
  unfold Spec.createReady, CreateTrackModal.handleSubmit, Spec.createCall.
  intros Hok.
  apply andb_true_iff in Hok as [Hok Hcover].
  apply andb_true_iff in Hok as [Ht Ha].
  rewrite Ht, Ha. cbn [negb orb].
  assert (Hc : nonEmpty (Draft.coverImage (CreateTrackModal.form s))
               && negb (CreateTrackModal.validateImageUrl
                          (Draft.coverImage (CreateTrackModal.form s)))
               = false).
  { destruct (nonEmpty (Draft.coverImage (CreateTrackModal.form s)));
      cbn [andb negb orb] in *; [now rewrite Hcover | reflexivity]. }
  rewrite Hc.
  unfold Api.createTrack, Api.uploadTrackFile, try_catch.
  destruct createReply as [response|e]; [|reflexivity].
  destruct (Draft.audioFile (CreateTrackModal.form s)); [|reflexivity].
  destruct uploadReply; reflexivity.
Qed.

Lemma edit_submit_refused
      (track : Track.TrackCardProps)
      (updateReply : Settled (Api.AxiosResponse Track.TrackCardProps))
      (uploadReply : Settled (Api.AxiosResponse Api.Uploaded))
      (s : EditTrackModal.State) :
  Spec.editReady s = false ->
  exists message,
    EditTrackModal.handleSubmit track updateReply uploadReply s
    = (EditTrackModal.setError (Some message) s, [])
    /\ message <> EmptyString.
Proof.
  unfold Spec.editReady, EditTrackModal.handleSubmit. intros Hno.
  destruct (nonEmpty (Draft.title (EditTrackModal.form s)));
    destruct (nonEmpty (Draft.artist (EditTrackModal.form s)));
    cbn [andb negb orb] in *;
    try (eexists; split; [reflexivity | discriminate]).
  destruct (nonEmpty (Draft.coverImage (EditTrackModal.form s)));
    cbn [andb negb orb] in *; [|discriminate].
  rewrite Hno. cbn [negb].
  eexists; split; [reflexivity | discriminate].
Qed.

Lemma edit_submit_accepted
      (track : Track.TrackCardProps)
      (updateReply : Settled (Api.AxiosResponse Track.TrackCardProps))
      (uploadReply : Settled (Api.AxiosResponse Api.Uploaded))
      (s : EditTrackModal.State) :
  Spec.editReady s = true ->
  EditTrackModal.handleSubmit track updateReply uploadReply s
  = match updateReply with
    | Resolved response =>
        match Draft.audioFile (EditTrackModal.form s) with
        | Some file =>
            match uploadReply with
            | Resolved uploaded =>
                (s, [Spec.updateCall track s;
                     Draft.CallUploadTrackFile (Track.id track) file;
                     Draft.OnFileUpload
                       (Some (Api.fileUrl (Api.data uploaded)));
                     Draft.OnUpdate (Api.data response);
                     Draft.OnClose])
            | Rejected e =>
                (EditTrackModal.setError (Some (EditTrackModal.caught e)) s,
                 [Spec.updateCall track s;
                  Draft.CallUploadTrackFile (Track.id track) file])
            end
        | None =>
            (s, [Spec.updateCall track s;
                 Draft.OnUpdate (Api.data response); Draft.OnClose])
        end
    | Rejected e =>
        (EditTrackModal.setError (Some (EditTrackModal.caught e)) s,
         [Spec.updateCall track s])
    end.
Proof.
  unfold Spec.editReady, EditTrackModal.handleSubmit, Spec.updateCall.
  intros Hok.
  apply andb_true_iff in Hok as [Hok Hcover].
  apply andb_true_iff in Hok as [Ht Ha].
  rewrite Ht, Ha. cbn [negb orb].
  assert (Hc : nonEmpty (Draft.coverImage (EditTrackModal.form s))
               && negb (EditTrackModal.hasScheme
                          (Draft.coverImage (EditTrackModal.form s)))
               = false).
  { destruct (nonEmpty (Draft.coverImage (EditTrackModal.form s)));
      cbn [andb negb orb] in *; [now rewrite Hcover | reflexivity]. }
  rewrite Hc.
  unfold Api.updateTrack, Api.uploadTrackFile, try_catch.
  destruct updateReply as [response|e]; [|reflexivity].
  destruct (Draft.audioFile (EditTrackModal.form s)); [|reflexivity].
  destruct uploadReply; reflexivity.
Qed.

End Submit.

(** X21: the create dialog checks the draft before it calls the server:
    with an empty title or artist, or with a cover that is neither empty
    nor an accepted URL, submitting issues no call and invokes no callback,
    and sets a message (the one about title and artist in the first case);
    otherwise the first thing it does is the create call with the fields of
    the draft, the cover being the default one when the draft has none, so
    the cover sent is never empty. Submitting never changes the fields of
    the draft. *)
Theorem create_submit_checks_first
        (createReply : Js.Settled (Api.AxiosResponse Track.TrackProps))
        (uploadReply : Js.Settled (Api.AxiosResponse Api.Uploaded))
        (s : CreateTrackModal.State) :
  let result := CreateTrackModal.handleSubmit createReply uploadReply s in
  CreateTrackModal.form (fst result) = CreateTrackModal.form s
  /\ (Spec.createReady s = false ->
      snd result = []
      /\ exists message,
           CreateTrackModal.error (fst result) = Some message
           /\ message <> EmptyString)
  /\ (Draft.title (CreateTrackModal.form s) = EmptyString
      \/ Draft.artist (CreateTrackModal.form s) = EmptyString ->
      snd result = []
      /\ CreateTrackModal.error (fst result)
         = Some "Track title and artist are required"%string)
  /\ (Spec.createReady s = true ->
      exists rest, snd result = Spec.createCall s :: rest)
  /\ (forall title artist album genres cover,
        In (Draft.CallCreateTrack title artist album genres cover)
           (snd result) ->
        title <> EmptyString /\ artist <> EmptyString
        /\ cover <> EmptyString).
Proof.
  intros result. subst result.
  destruct (Spec.createReady s) eqn:Eready.
  - rewrite (create_submit_accepted createReply uploadReply s Eready).
    assert (Hfields :
              Draft.title (CreateTrackModal.form s) <> EmptyString
              /\ Draft.artist (CreateTrackModal.form s) <> EmptyString).
    { unfold Spec.createReady in Eready.
      apply andb_true_iff in Eready as [Eready _].
      apply andb_true_iff in Eready as [Ht Ha].
      unfold Js.nonEmpty in Ht, Ha.
      apply negb_true_iff in Ht, Ha. apply String.eqb_neq in Ht, Ha.
      now split. }
    assert (Hcall :
              forall title artist album genres cover,
                Spec.createCall s
                = Draft.CallCreateTrack title artist album genres cover ->
                title <> EmptyString /\ artist <> EmptyString
                /\ cover <> EmptyString).
    { unfold Spec.createCall. intros t a al gs c E. inversion E; subst.
      destruct Hfields as [Ht Ha]. repeat split; try assumption.
      destruct (Js.nonEmpty (Draft.coverImage (CreateTrackModal.form s)))
        eqn:Ec.
      - unfold Js.nonEmpty in Ec. apply negb_true_iff in Ec.
        now apply String.eqb_neq in Ec.
      - discriminate. }
    destruct createReply as [response|e];
      [destruct (Draft.audioFile (CreateTrackModal.form s));
       [destruct uploadReply as [uploaded|e]|]|];
      cbn [fst snd]; (split; [reflexivity|]);
      (split; [discriminate|]);
      (split; [intros [H|H]; destruct Hfields; contradiction|]);
      (split; [eexists; reflexivity|]);
      intros t ar al gs c Hin; cbn in Hin;
      repeat (destruct Hin as [Hin|Hin]; [try discriminate|]);
      try contradiction; now apply (Hcall t ar al gs c).
  - destruct (create_submit_refused createReply uploadReply s Eready)
      as (message & Hsub & Hmsg).
    split; [now rewrite Hsub|].
    split; [intros _; rewrite Hsub; split; [reflexivity | now exists message]|].
    split; [|split; [discriminate | rewrite Hsub; intros t ar al gs c []]].
    intros Hempty.
    unfold CreateTrackModal.handleSubmit.
    assert (Hcond : negb (Js.nonEmpty (Draft.title (CreateTrackModal.form s)))
                    || negb (Js.nonEmpty
                               (Draft.artist (CreateTrackModal.form s)))
                    = true).
    { unfold Js.nonEmpty.
      destruct Hempty as [-> | ->]; cbn; [reflexivity | apply orb_true_r]. }
    rewrite Hcond. split; reflexivity.
Qed.

Lemma create_submit_checks_first_witness :
  snd (CreateTrackModal.handleSubmit Sample.createdReply Sample.uploadedReply
         CreateTrackModal.initialState)
  = []
  /\ exists rest,
       snd (CreateTrackModal.handleSubmit
              Sample.createdReply Sample.uploadedReply Sample.filledDraft)
       = Spec.createCall Sample.filledDraft :: rest.
Proof.
  split.
  - refine (proj1 (proj1 (proj2 (proj2
              (create_submit_checks_first
                 Sample.createdReply Sample.uploadedReply
                 CreateTrackModal.initialState))) _)).
    left. reflexivity.
  - refine (proj1 (proj2 (proj2 (proj2
              (create_submit_checks_first
                 Sample.createdReply Sample.uploadedReply
                 Sample.filledDraft)))) _).
    vm_compute. reflexivity.
Defined.

(** X22: once the draft of the create dialog is ready, the parent is told
    of the created track exactly when the create call succeeds and the
    upload, if a file is attached, succeeds too, and then the dialog's own
    state is left as it is; the upload is asked for only after a successful
    create call, under the id of the created track. If the create call
    succeeds and the upload fails, the track has been created but the
    parent is not told and the dialog shows the error; whenever the parent
    is not told, the dialog shows the message of the failed call. *)
Theorem create_submit_outcomes
        (createReply : Js.Settled (Api.AxiosResponse Track.TrackProps))
        (uploadReply : Js.Settled (Api.AxiosResponse Api.Uploaded))
        (s : CreateTrackModal.State) :
  Spec.createReady s = true ->
  let result := CreateTrackModal.handleSubmit createReply uploadReply s in
  (forall newTrack,
      In (Draft.OnCreate newTrack) (snd result) <->
      exists response,
        createReply = Js.Resolved response
        /\ Api.data response = newTrack
        /\ (Draft.audioFile (CreateTrackModal.form s) = None
            \/ exists uploaded, uploadReply = Js.Resolved uploaded))
  /\ ((exists newTrack, In (Draft.OnCreate newTrack) (snd result)) ->
      fst result = s)
  /\ (forall id file,
        In (Draft.CallUploadTrackFile id file) (snd result) <->
        exists response,
          createReply = Js.Resolved response
          /\ id = Track.id (Track.card (Api.data response))
          /\ Draft.audioFile (CreateTrackModal.form s) = Some file)
  /\ ((forall newTrack, ~ In (Draft.OnCreate newTrack) (snd result)) ->
      exists e,
        CreateTrackModal.error (fst result)
        = Some (CreateTrackModal.caught e)
        /\ (createReply = Js.Rejected e \/ uploadReply = Js.Rejected e)).
Proof.
  intros Hready result. subst result.
  rewrite (create_submit_accepted createReply uploadReply s Hready).
  unfold Spec.createCall.
  destruct createReply as [response|e].
  - destruct (Draft.audioFile (CreateTrackModal.form s)) as [file|] eqn:Efile.
    + destruct uploadReply as [uploaded|e]; cbn [fst snd].
      * split.
        { intros newTrack. split.
          - intros [H | [H | [H | [H | []]]]]; try discriminate.
            inversion H; subst. exists response.
            repeat split. right. now exists uploaded.
          - intros (r & Hr & <- & _). inversion Hr; subst.
            right. right. right. now left. }
        split; [reflexivity|].
        split.
        { intros id f. split.
          - intros [H | [H | [H | [H | []]]]]; try discriminate.
            inversion H; subst. now exists response.
          - intros (r & Hr & -> & Hf). inversion Hr; subst.
            inversion Hf; subst. right. now left. }
        intros Hnone. exfalso.
        apply (Hnone (Api.data response)). right. right. right. now left.
      * split.
        { intros newTrack. split.
          - intros [H | [H | []]]; discriminate.
          - intros (r & _ & _ & [Hf | (u & Hu)]); discriminate. }
        split; [intros (t & [H | [H | []]]); discriminate|].
        split.
        { intros id f. split.
          - intros [H | [H | []]]; try discriminate.
            inversion H; subst. now exists response.
          - intros (r & Hr & -> & Hf). inversion Hr; subst.
            inversion Hf; subst. right. now left. }
        intros _. exists e. split; [reflexivity | now right].
    + cbn [fst snd]. split.
      { intros newTrack. split.
        - intros [H | [H | []]]; try discriminate.
          inversion H; subst. exists response. repeat split. now left.
        - intros (r & Hr & <- & _). inversion Hr; subst. right. now left. }
      split; [reflexivity|].
      split.
      { intros id f. split.
        - intros [H | [H | []]]; discriminate.
        - intros (r & _ & _ & Hf). discriminate. }
      intros Hnone. exfalso.
      apply (Hnone (Api.data response)). right. now left.
  - cbn [fst snd]. split.
    { intros newTrack. split.
      - intros [H | []]. discriminate.
      - intros (r & Hr & _). discriminate. }
    split; [intros (t & [H | []]); discriminate|].
    split.
    { intros id f. split.
      - intros [H | []]. discriminate.
      - intros (r & Hr & _). discriminate. }
    intros _. exists e. split; [reflexivity | now left].
Qed.

Lemma create_submit_outcomes_witness :
  (forall newTrack,
      ~ In (Draft.OnCreate newTrack)
           (snd (CreateTrackModal.handleSubmit
                   Sample.createdReply Sample.uploadRefused
                   Sample.filledDraftWithAudio)))
  /\ In (Draft.CallUploadTrackFile "n" Sample.smallMp3)
        (snd (CreateTrackModal.handleSubmit
                Sample.createdReply Sample.uploadRefused
                Sample.filledDraftWithAudio)).
Proof.
  assert (Hready : Spec.createReady Sample.filledDraftWithAudio = true)
    by (vm_compute; reflexivity).
  pose proof (create_submit_outcomes
                Sample.createdReply Sample.uploadRefused
                Sample.filledDraftWithAudio Hready) as (Htold & _ & Hup & _).
  split.
  - intros newTrack Hin. apply Htold in Hin
      as (response & _ & _ & [Hfile | (uploaded & Hu)]); discriminate.
  - apply Hup. exists {| Api.data := Sample.created |}.
    repeat split.
Defined.

(** ** Saving the edit dialog *)

(** X23: the Save button of the edit dialog always ends with the
    deleted-file flag down and the fields of the draft as they were. With a
    draft that is not ready it issues no call. With a ready draft, the
    parent is told of the update exactly when the update call succeeds and
    the upload, if a file is attached, succeeds too; the dialog closes
    exactly when the parent is told; every call carries the id of the
    track the dialog was opened on; and the file reference handed to the
    parent is the one the upload answered. *)
Theorem edit_save_outcomes
        (track : Track.TrackCardProps)
        (updateReply : Js.Settled (Api.AxiosResponse Track.TrackCardProps))
        (uploadReply : Js.Settled (Api.AxiosResponse Api.Uploaded))
        (s : EditTrackModal.State) :
  let result := EditTrackModal.handleSave track updateReply uploadReply s in
  EditTrackModal.isDeletedFile (fst result) = false
  /\ EditTrackModal.form (fst result) = EditTrackModal.form s
  /\ (Spec.editReady s = false -> snd result = [])
  /\ (Spec.editReady s = true ->
      (forall updated,
          In (Draft.OnUpdate updated) (snd result) <->
          exists response,
            updateReply = Js.Resolved response
            /\ Api.data response = updated
            /\ (Draft.audioFile (EditTrackModal.form s) = None
                \/ exists uploaded, uploadReply = Js.Resolved uploaded))
      /\ (In Draft.OnClose (snd result) <->
          exists updated, In (Draft.OnUpdate updated) (snd result)))
  /\ (forall id title artist album genres cover,
        In (Draft.CallUpdateTrack id title artist album genres cover)
           (snd result) ->
        id = Track.id track)
  /\ (forall id file,
        In (Draft.CallUploadTrackFile id file) (snd result) ->
        id = Track.id track
        /\ Draft.audioFile (EditTrackModal.form s) = Some file)
  /\ (forall fileUrl,
        In (Draft.OnFileUpload fileUrl) (snd result) ->
        exists uploaded,
          uploadReply = Js.Resolved uploaded
          /\ fileUrl = Some (Api.fileUrl (Api.data uploaded))).
Proof.
  intros result. subst result. unfold EditTrackModal.handleSave.
  destruct (Spec.editReady s) eqn:Eready.
  - rewrite (edit_submit_accepted track updateReply uploadReply s Eready).
    unfold Spec.updateCall.
    destruct updateReply as [response|e];
      [destruct (Draft.audioFile (EditTrackModal.form s)) as [file|] eqn:Efile;
       [destruct uploadReply as [uploaded|e]|]|];
      cbn [fst snd]; (split; [reflexivity|]); (split; [reflexivity|]);
      (split; [discriminate|]); (split; [intros _; split|]).
    all: try (split; [|split]).
    all: try (intros updated; split;
              [ intros Hin; cbn in Hin;
                repeat (destruct Hin as [Hin|Hin]; [try discriminate|]);
                try contradiction;
                inversion Hin; subst; eexists; repeat split;
                first [ now left | right; eexists; reflexivity ]
              | intros (r & Hr & Hd & Hcase); inversion Hr; subst;
                cbn; tauto ]).
    all: try (split;
              [ intros _; eexists; cbn; tauto
              | intros _; cbn; tauto ]).
    all: try (intros id t ar al gs c Hin; cbn in Hin;
              repeat (destruct Hin as [Hin|Hin]; [try discriminate|]);
              try contradiction; now inversion Hin).
    all: try (intros id f Hin; cbn in Hin;
              repeat (destruct Hin as [Hin|Hin]; [try discriminate|]);
              try contradiction; inversion Hin; subst; now split).
    all: try (intros url Hin; cbn in Hin;
              repeat (destruct Hin as [Hin|Hin]; [try discriminate|]);
              try contradiction; inversion Hin; subst;
              eexists; split; reflexivity).
    all: try (intros updated; split;
              [ intros Hin; cbn in Hin;
                repeat (destruct Hin as [Hin|Hin]; [try discriminate|]);
                contradiction
              | intros (r & Hr & Hd & [Hcase | (u & Hu)]); discriminate ]).
    all: try (split;
              [ intros Hin; cbn in Hin;
                repeat (destruct Hin as [Hin|Hin]; [try discriminate|]);
                contradiction
              | intros (u & Hin); cbn in Hin;
                repeat (destruct Hin as [Hin|Hin]; [try discriminate|]);
                contradiction ]).
  - destruct (edit_submit_refused track updateReply uploadReply s Eready)
      as (message & -> & _).
    cbn [fst snd]. repeat split; try discriminate; intros; contradiction.
Qed.

Lemma edit_save_outcomes_witness :
  In Draft.OnClose
     (snd (EditTrackModal.handleSave Sample.a Sample.updatedReply
             Sample.uploadedReply Sample.editingAWithAudio))
  /\ ~ In Draft.OnClose
         (snd (EditTrackModal.handleSave Sample.a Sample.updatedReply
                 Sample.uploadRefused Sample.editingAWithAudio)).
Proof.
  assert (Hready : Spec.editReady Sample.editingAWithAudio = true)
    by (vm_compute; reflexivity).
  split.
  - destruct (edit_save_outcomes Sample.a Sample.updatedReply
                Sample.uploadedReply Sample.editingAWithAudio)
      as (_ & _ & _ & Hok & _).
    destruct (Hok Hready) as (Htold & Hclose).
    apply Hclose. exists Sample.a_without_audio. apply Htold.
    eexists. repeat split. right. eexists. reflexivity.
  - destruct (edit_save_outcomes Sample.a Sample.updatedReply
                Sample.uploadRefused Sample.editingAWithAudio)
      as (_ & _ & _ & Hok & _).
    destruct (Hok Hready) as (Htold & Hclose).
    intros Hin. apply Hclose in Hin as (updated & Hin).
    apply Htold in Hin as (response & _ & _ & [Hf | (u & Hu)]);
      discriminate.
Defined.

(** X24: the delete-file button of the edit dialog asks the server once:
    pressed while the flag is down it issues one delete call for the track
    the dialog was opened on and raises the flag, and it does so whatever
    the server answers, a failure included, without setting a message;
    pressed while the flag is up it does nothing. The draft is never
    touched. *)
Theorem delete_file_once
        (describe : Js.Thrown -> string) (track : Track.TrackCardProps)
        (reply again : Js.Settled (Api.AxiosResponse unit))
        (s : EditTrackModal.State) :
  let result := EditTrackModal.handleDeleteFile describe track reply s in
  (EditTrackModal.isDeletedFile s = false ->
   result = (EditTrackModal.setIsDeletedFile true s,
             [Draft.CallDeleteAudiofile (Track.id track)]))
  /\ (EditTrackModal.isDeletedFile s = true -> result = (s, []))
  /\ EditTrackModal.isDeletedFile (fst result) = true
  /\ EditTrackModal.error (fst result) = EditTrackModal.error s
  /\ EditTrackModal.form (fst result) = EditTrackModal.form s
  /\ EditTrackModal.handleDeleteFile describe track again (fst result)
     = (fst result, []).
Proof.
  intros result. subst result.
  unfold EditTrackModal.handleDeleteFile, Api.deleteAudiofile, Js.try_catch.
  destruct (EditTrackModal.isDeletedFile s) eqn:E; cbn [negb].
  - cbn [fst snd]. rewrite E. cbn [negb].
    repeat split; try discriminate; assumption.
  - destruct reply; cbn; repeat split; discriminate.
Qed.

Lemma delete_file_once_witness :
  EditTrackModal.handleDeleteFile Sample.describe Sample.a
    (Js.Rejected (Js.ErrorObj "Network Error")) Sample.editingA
  = (EditTrackModal.setIsDeletedFile true Sample.editingA,
     [Draft.CallDeleteAudiofile "a"]).
Proof.
  refine (proj1 (delete_file_once Sample.describe Sample.a
                   (Js.Rejected (Js.ErrorObj "Network Error"))
                   Sample.deleted Sample.editingA) _).
  reflexivity.
Defined.

(** X25: the edit dialog opened on a track and saved at once sends that
    track's own id, title, artist, album, genres and cover, and asks for no
    upload, provided the track has a title and an artist and its cover is
    empty or starts with the scheme; closing the dialog empties the draft,
    clears the message, lowers the deleted-file flag and tells the parent
    to close. *)
Theorem edit_open_save_close
        (track : Track.TrackCardProps)
        (updateReply : Js.Settled (Api.AxiosResponse Track.TrackCardProps))
        (uploadReply : Js.Settled (Api.AxiosResponse Api.Uploaded))
        (s : EditTrackModal.State) :
  (Track.title track <> EmptyString ->
   Track.artist track <> EmptyString ->
   Track.coverImage track = EmptyString
   \/ EditTrackModal.hasScheme (Track.coverImage track) = true ->
   (exists rest,
       snd (EditTrackModal.handleSave track updateReply uploadReply
              (EditTrackModal.openWith track s))
       = Draft.CallUpdateTrack
           (Track.id track) (Track.title track) (Track.artist track)
           (Track.album track) (Track.genres track) (Track.coverImage track)
         :: rest)
   /\ forall id file,
        ~ In (Draft.CallUploadTrackFile id file)
             (snd (EditTrackModal.handleSave track updateReply uploadReply
                     (EditTrackModal.openWith track s))))
  /\ EditTrackModal.handleClose s
     = ({| EditTrackModal.form := Draft.blank;
           EditTrackModal.availableGenres := EditTrackModal.availableGenres s;
           EditTrackModal.error := None;
           EditTrackModal.isDeletedFile := false |},
        [Draft.OnClose]).
Proof.
  split; [|reflexivity].
  intros Ht Ha Hc.
  assert (Hready : Spec.editReady (EditTrackModal.openWith track s) = true).
  { unfold Spec.editReady, Js.nonEmpty, EditTrackModal.openWith,
      EditTrackModal.setForm.
    cbn [EditTrackModal.form Draft.title Draft.artist Draft.coverImage].
    apply String.eqb_neq in Ht, Ha. rewrite Ht, Ha. cbn [negb andb].
    destruct Hc as [-> | ->]; [reflexivity | apply orb_true_r]. }
  unfold EditTrackModal.handleSave.
  rewrite (edit_submit_accepted track updateReply uploadReply _ Hready).
  unfold Spec.updateCall, EditTrackModal.openWith, EditTrackModal.setForm.
  cbn [EditTrackModal.form Draft.title Draft.artist Draft.album Draft.genres
       Draft.coverImage Draft.audioFile].
  destruct updateReply; cbn [fst snd]; split;
    try (eexists; reflexivity);
    intros id file Hin; cbn in Hin;
    repeat (destruct Hin as [Hin|Hin]; [try discriminate|]);
    contradiction.
Qed.

Lemma edit_open_save_close_witness :
  exists rest,
    snd (EditTrackModal.handleSave Sample.a Sample.updatedReply
           Sample.uploadedReply
           (EditTrackModal.openWith Sample.a EditTrackModal.initialState))
    = Draft.CallUpdateTrack "a" "a" "artist" EmptyString [] EmptyString
      :: rest.
Proof.
  refine (proj1 (proj1 (edit_open_save_close
                          Sample.a Sample.updatedReply Sample.uploadedReply
                          EditTrackModal.initialState) _ _ _)).
  - discriminate.
  - discriminate.
  - left. reflexivity.
Defined.

(** ** From the dialogs to the list *)

Section Delivery.
Import Js TracksList.

Lemma quiet_step (e : Event) (w : World) :
  e <> FileUploaded ->
  paramsRef (handle e (ui w)) = paramsRef (ui w) ->
  refreshTrigger (handle e (ui w)) = refreshTrigger (ui w) ->
  ui (step e w) = handle e (ui w)
  /\ tracksInFlight (step e w)
     = (tracksInFlight w
        - match e with TracksSettled _ => 1 | _ => 0 end)%nat.
Proof.
  intros Hne Href Hrefresh. unfold step.
  assert (Hquiet : match e with
                   | FileUploaded => true
                   | _ => fetchEffectFires (ui w) (handle e (ui w))
                   end = false).
  { unfold fetchEffectFires. rewrite Href, Hrefresh.
    rewrite Nat.eqb_refl, Z.eqb_refl. destruct e; try reflexivity.
    congruence. }
  rewrite Hquiet. cbn [ui tracksInFlight]. split; [reflexivity|].
  apply Nat.add_0_r.
Qed.


Lemma updated_step (updatedTrack : Track.TrackCardProps) (w : World) :
  ui (step (TrackUpdated updatedTrack) w)
  = handleUpdateTrack updatedTrack (ui w)
  /\ tracksInFlight (step (TrackUpdated updatedTrack) w) = tracksInFlight w.
Proof.
  destruct (quiet_step (TrackUpdated updatedTrack) w) as [Hui Hfl];
    try reflexivity; try discriminate.
  split; [exact Hui|]. rewrite Hfl. apply Nat.sub_0_r.
Qed.

Lemma close_edit_step (w : World) :
  ui (step CloseEdit w) = setEditModal ModalState.close (ui w)
  /\ tracksInFlight (step CloseEdit w) = tracksInFlight w.
Proof.
  destruct (quiet_step CloseEdit w) as [Hui Hfl];
    try reflexivity; try discriminate.
  split; [exact Hui|]. rewrite Hfl. apply Nat.sub_0_r.
Qed.

Lemma uploaded_step (w : World) :
  ui (step FileUploaded w) = fetchTracks_begin (ui w)
  /\ tracksInFlight (step FileUploaded w) = S (tracksInFlight w).
Proof.
  unfold step. cbn [ui tracksInFlight handle]. split; [reflexivity|].
  rewrite Nat.sub_0_r. apply Nat.add_1_r.
Qed.

End Delivery.



(** X27: when the edit dialog tells its parent of an updated track, the
    controller ends with that track in place of every track of its id, the
    ids on the page, the total and the selection as they were, and the
    edit dialog closed; a list request is started exactly when a new file
    was attached. *)
Theorem updated_track_reaches_list
        (track : Track.TrackCardProps)
        (updateReply : Js.Settled (Api.AxiosResponse Track.TrackCardProps))
        (uploadReply : Js.Settled (Api.AxiosResponse Api.Uploaded))
        (s : EditTrackModal.State) (w : TracksList.World)
        (updated : Track.TrackCardProps) :
  Spec.editReady s = true ->
  In (Draft.OnUpdate updated)
     (snd (EditTrackModal.handleSave track updateReply uploadReply s)) ->
  let w' :=
    Wiring.deliver Wiring.Edit
      (snd (EditTrackModal.handleSave track updateReply uploadReply s)) w in
  TracksList.tracks (TracksList.ui w')
  = map (fun t => if String.eqb (Track.id t) (Track.id updated)
                  then updated else t)
        (TracksList.tracks (TracksList.ui w))
  /\ TracksList.visibleIds (TracksList.ui w')
     = TracksList.visibleIds (TracksList.ui w)
  /\ TracksList.paginationMeta (TracksList.ui w')
     = TracksList.paginationMeta (TracksList.ui w)
  /\ TracksList.selectedTrackIds (TracksList.ui w')
     = TracksList.selectedTrackIds (TracksList.ui w)
  /\ ModalState.isOpen (TracksList.editModal (TracksList.ui w')) = false
  /\ TracksList.tracksInFlight w'
     = match Draft.audioFile (EditTrackModal.form s) with
       | Some _ => S (TracksList.tracksInFlight w)
       | None => TracksList.tracksInFlight w
       end.
Proof.
  intros Hready. unfold EditTrackModal.handleSave.
  rewrite (edit_submit_accepted track updateReply uploadReply s Hready).
  assert (Hids : forall st,
             TracksList.visibleIds
               (TracksList.setEditModal ModalState.close
                  (TracksList.handleUpdateTrack updated st))
             = TracksList.visibleIds st).
  { intros st. unfold TracksList.visibleIds. cbn. apply update_keeps_ids. }
  destruct updateReply as [response|e].
  - destruct (Draft.audioFile (EditTrackModal.form s)) as [file|].
    + destruct uploadReply as [uploaded|e]; cbn [snd].
      * intros [H | [H | [H | [H | [H | []]]]]]; try discriminate.
        inversion H; subst.
        unfold Wiring.deliver. cbn [fold_left Wiring.eventOf Spec.updateCall].
        destruct (close_edit_step
                    (TracksList.step (TracksList.TrackUpdated (Api.data response))
                       (TracksList.step TracksList.FileUploaded w)))
          as [-> ->].
        destruct (updated_step (Api.data response)
                               (TracksList.step TracksList.FileUploaded w))
          as [-> ->].
        destruct (uploaded_step w) as [-> ->].
        rewrite Hids. repeat split.
      * intros [H | [H | []]]; discriminate.
    + cbn [snd]. intros [H | [H | [H | []]]]; try discriminate.
      inversion H; subst.
      unfold Wiring.deliver. cbn [fold_left Wiring.eventOf Spec.updateCall].
      destruct (close_edit_step
                  (TracksList.step (TracksList.TrackUpdated (Api.data response))
                                   w))
        as [-> ->].
      destruct (updated_step (Api.data response) w) as [-> ->].
      rewrite Hids. repeat split.
  - cbn [snd]. intros [H | []]. discriminate.
Qed.

Lemma updated_track_reaches_list_witness :
  TracksList.tracks
    (TracksList.ui
       (Wiring.deliver Wiring.Edit
          (snd (EditTrackModal.handleSave Sample.a Sample.updatedReply
                  Sample.uploadedReply Sample.editingA))
          (Sample.world (Sample.firstPageLoaded ++ [TracksList.EditTrack 0]))))
  = [Sample.a_without_audio; Sample.b].
Proof.
  pose proof (updated_track_reaches_list
                Sample.a Sample.updatedReply Sample.uploadedReply
                Sample.editingA
                (Sample.world
                   (Sample.firstPageLoaded ++ [TracksList.EditTrack 0]))
                Sample.a_without_audio)
    as H.
  rewrite (proj1 (H ltac:(vm_compute; reflexivity)
                    ltac:(vm_compute; tauto))).
  vm_compute. reflexivity.
Defined.

(** ** What a row shows *)

Section Row.
Import Ascii.
Local Open Scope string_scope.






End Row.



(** X29: the playable URL of a file reference is the base URL, [files/]
    and the reference, so two references give the same URL only when they
    are the same reference. *)
Theorem audio_url_is_injective (file1 file2 : string) :
  Api.getAudioURL file1
  = ("http://localhost:8000/api/files/" ++ file1)%string
  /\ (Api.getAudioURL file1 = Api.getAudioURL file2 -> file1 = file2).
Proof.
  split; [reflexivity|].
  unfold Api.getAudioURL, Api.apiURL. cbn. intros H.
  now inversion H.
Qed.

Lemma audio_url_is_injective_witness :
  Api.getAudioURL "a.mp3" = "http://localhost:8000/api/files/a.mp3"%string
  /\ "a.mp3"%string = "a.mp3"%string.
Proof.
  split.
  - exact (proj1 (audio_url_is_injective "a.mp3" "a.mp3")).
  - apply (proj2 (audio_url_is_injective "a.mp3" "a.mp3")). reflexivity.
Defined.
